(** * AutomateIQ backend: the authentication and gating middleware

    A shallow embedding of [backend/src/middleware/auth.js] (the request
    authenticator [auth], the role authorizer [authorize], the subscription
    gate [checkSubscription] and the quota gate [checkAICredits]) and of
    [generateToken] from [backend/src/routes/auth.js], with the properties
    the specification states about them.

    An Express middleware [(req, res, next) => ...] either answers through
    [res.status(..).json(..)] or calls [next()], and may mutate [req] and the
    datastore on the way.  It is modelled as a function from the request and
    the store to a [Result]: what it did, and the request and store it left
    behind. *)

From Stdlib Require Import ZArith Ascii String.
From stdpp Require Import gmap strings list.

Local Open Scope Z_scope.

(** ** The fragment of JavaScript the middleware relies on *)

Module JS.

(** [!s] on a value that is a string or [undefined]: both [undefined] and
    the empty string are falsy. *)
Definition truthy (v : option string) : bool :=
  match v with
  | Some s => negb (String.eqb s "")
  | None => false
  end.

(** [s.startsWith(p)]. *)
Definition startsWith (s p : string) : bool := String.prefix p s.

(** [s.substring(n)]: the characters from index [n] to the end. *)
Definition substring (n : nat) (s : string) : string :=
  String.substring n (String.length s - n) s.

(** [xs.includes(x)] on an array of strings. *)
Definition includes (xs : list string) (x : string) : bool :=
  existsb (String.eqb x) xs.

(** Values a property read [o[k]] on a number table can produce: an own
    entry, [undefined], or a member inherited from [Object.prototype],
    kept with the string [ToPrimitive] turns it into. *)
Inductive value :=
| VUndefined
| VNumber (n : Z)
| VObject (prim : string).

(** The members every plain object inherits, with their primitive form.
    All are functions, except [__proto__] which is the prototype itself. *)
Definition native (name : string) : string :=
  "function " +:+ name +:+ "() { [native code] }".

Definition objectPrototype : gmap string string :=
  list_to_map
    [ ("constructor", native "Object");
      ("__defineGetter__", native "__defineGetter__");
      ("__defineSetter__", native "__defineSetter__");
      ("hasOwnProperty", native "hasOwnProperty");
      ("__lookupGetter__", native "__lookupGetter__");
      ("__lookupSetter__", native "__lookupSetter__");
      ("isPrototypeOf", native "isPrototypeOf");
      ("propertyIsEnumerable", native "propertyIsEnumerable");
      ("toString", native "toString");
      ("valueOf", native "valueOf");
      ("__proto__", "[object Object]");
      ("toLocaleString", native "toLocaleString") ].

(** [o[k]] for an object literal [o] whose own properties are numbers. *)
Definition get (o : gmap string Z) (k : string) : value :=
  match o !! k with
  | Some n => VNumber n
  | None =>
      match objectPrototype !! k with
      | Some prim => VObject prim
      | None => VUndefined
      end
  end.

(** [ToNumber] after [ToPrimitive]; [None] is [NaN].  The inherited
    members convert to text that is not a numeric literal. *)
Definition toNumber (v : value) : option Z :=
  match v with
  | VNumber n => Some n
  | VUndefined => None
  | VObject _ => None
  end.

(** [a < b]: when both operands convert to strings they are compared as
    strings, otherwise as numbers, and any comparison with [NaN] is
    false. *)
Definition lt (a b : value) : bool :=
  match a, b with
  | VObject x, VObject y => String.ltb x y
  | _, _ =>
      match toNumber a, toNumber b with
      | Some x, Some y => x <? y
      | _, _ => false
      end
  end.

(** A thrown [Error]: the handler in [auth] dispatches on [error.name]. *)
Record error := Error { name : string; message : string }.

(** A computation that returns or throws. *)
Inductive completion (A : Type) :=
| Return (a : A)
| Throw (e : error).
Arguments Return {A} a.
Arguments Throw {A} e.

Definition bind {A B} (c : completion A) (k : A -> completion B) : completion B :=
  match c with
  | Return a => k a
  | Throw e => Throw e
  end.

(** The eventual state of a promise. *)
Inductive promise :=
| Fulfilled
| Rejected (reason : error).

End JS.

Notation "'let!' x ':=' c 'in' k" := (JS.bind c (fun x => k))
  (at level 10, x name, c at level 100, k at level 200, only parsing).

(** ** Responses *)

Inductive json :=
| JBool (b : bool)
| JString (s : string)
| JNumber (n : Z).

(** The object literal handed to [res.json], in source order. *)
Definition body := list (string * json).

Record Response := { status : Z; payload : body }.

Fixpoint field (k : string) (b : body) : option json :=
  match b with
  | [] => None
  | (k', v) :: rest => if String.eqb k k' then Some v else field k rest
  end.

(** ** Documents of the datastore (the fields the middleware reads) *)

Record User := {
  user_id : string;
  user_email : string;
  user_password : option string;
  user_role : string;
  user_isActive : bool;
  user_lastActiveAt : Z
}.

Record Subscription := { plan : string; sub_status : string }.

Record Counters := { users : Z; aiCredits : Z; storage : Z; documents : Z }.

Record Organization := {
  org_id : string;
  org_isActive : bool;
  subscription : Subscription;
  limits : Counters;
  usage : Counters
}.

Record Store := {
  userDocs : gmap string User;
  orgDocs : gmap string Organization
}.

(** ** Requests *)

(** [req.user] as [auth] attaches it. *)
Record AuthUser := {
  userId : string;
  organizationId : string;
  role : string;
  email : string
}.

Record Request := {
  cookies_token : option string;
  headers_authorization : option string;
  req_user : option AuthUser;
  req_organization : option Organization
}.

Inductive Outcome :=
| Responded (r : Response)
| NextCalled.

Record Result := {
  outcome : Outcome;
  request_after : Request;
  store_after : Store
}.

Definition respond (code : Z) (b : body) (req : Request) (st : Store) : Result :=
  {| outcome := Responded {| status := code; payload := b |};
     request_after := req; store_after := st |}.

Definition next (req : Request) (st : Store) : Result :=
  {| outcome := NextCalled; request_after := req; store_after := st |}.

(** ** Role authorizer: [authorize(...roles)] *)

Definition authorize (roles : list string) (req : Request) (st : Store) : Result :=
  match req_user req with
  | None =>
      respond 401
        [ ("success", JBool false);
          ("message", JString "Access denied. Authentication required.") ] req st
  | Some u =>
      if negb (JS.includes roles (role u)) then
        respond 403
          [ ("success", JBool false);
            ("message", JString "Access denied. Insufficient permissions.") ] req st
      else next req st
  end.

(** ** Subscription gate: [checkSubscription(requiredPlan)] *)

Definition planHierarchy : gmap string Z :=
  <["starter" := 0]> (<["business" := 1]> (<["enterprise" := 2]> ∅)).

(** The rank of a plan in the table, and the strict order it induces on the
    plans that have one. *)
Definition rank (p : string) : option Z := planHierarchy !! p.

Definition below (p q : string) : Prop :=
  exists a b, rank p = Some a /\ rank q = Some b /\ a < b.

(** A name that reaches no member inherited from [Object.prototype]. *)
Definition ordinary (k : string) : Prop := JS.objectPrototype !! k = None.

Definition checkSubscription (requiredPlan : string)
    (req : Request) (st : Store) : Result :=
  match req_organization req with
  | None =>
      respond 401
        [ ("success", JBool false);
          ("message", JString "Organization context required.") ] req st
  | Some organization =>
      let currentPlan := plan (subscription organization) in
      let subscriptionStatus := sub_status (subscription organization) in
      if negb (String.eqb subscriptionStatus "active") then
        respond 403
          [ ("success", JBool false);
            ("message", JString "Subscription required. Please upgrade your plan.");
            ("code", JString "SUBSCRIPTION_REQUIRED") ] req st
      else if JS.lt (JS.get planHierarchy currentPlan)
                    (JS.get planHierarchy requiredPlan) then
        respond 403
          [ ("success", JBool false);
            ("message", JString (requiredPlan +:+ " plan or higher required."));
            ("code", JString "PLAN_UPGRADE_REQUIRED");
            ("requiredPlan", JString requiredPlan);
            ("currentPlan", JString currentPlan) ] req st
      else next req st
  end.

(** ** Quota gate: [checkAICredits(creditsRequired)]

    Credits are whole numbers well inside the exact range of a JavaScript
    number, so they are integers here. *)

(** The plan table of [routes/billing.js] writes an unlimited allowance as
    [-1]. *)
Definition unlimited : Z := -1.

(** Modelled from the spec: the method [canUseAICredits] of the Organization
    model, which is not among the sources.  "Computes remaining allowance =
    limits.metered-usage - usage.metered-usage.  A limits value representing
    unlimited bypasses the comparison entirely and always permits", and the
    gate fails "if remaining allowance < requested cost". *)
Definition canUseAICredits (organization : Organization) (credits : Z) : bool :=
  if aiCredits (limits organization) =? unlimited then true
  else negb (aiCredits (limits organization) - aiCredits (usage organization) <? credits).

Definition checkAICredits (creditsRequired : Z)
    (req : Request) (st : Store) : Result :=
  match req_organization req with
  | None =>
      respond 401
        [ ("success", JBool false);
          ("message", JString "Organization context required.") ] req st
  | Some organization =>
      if negb (canUseAICredits organization creditsRequired) then
        respond 403
          [ ("success", JBool false);
            ("message", JString "Insufficient AI credits. Please upgrade your plan.");
            ("code", JString "AI_CREDITS_EXHAUSTED");
            ("required", JNumber creditsRequired);
            ("available",
              JNumber (aiCredits (limits organization) - aiCredits (usage organization))) ]
          req st
      else next req st
  end.

(** ** Session tokens *)

(** The claims of a token: the two ids [generateToken] signs, and the
    registered time claims, in seconds. *)
Record Claims := {
  claim_userId : string;
  claim_organizationId : string;
  iat : Z;
  nbf : option Z;
  exp : option Z
}.

(** A decoded token: its claims and the signature segment. *)
Record Jws := { claims : Claims; signature : string }.

(** What the jsonwebtoken package brings with it: the keyed MAC of the HS256
    default, and the compact [header.payload.signature] serialisation with
    its parser. *)
Class Jose := {
  hmac : string -> Claims -> string;
  compact : Jws -> string;
  parse : string -> option Jws
}.

(** The User model's [updateLastActive], which is not among the sources.
    The login route awaits it, so it answers with the promise of the save;
    the store it leaves is up to the model. *)
Class UserModel := {
  updateLastActive : Z -> User -> Store -> JS.promise * Store
}.

(** Every compact token parses back, and none is the empty string. *)
Record codec_sound `{Jose} : Prop := {
  parse_compact : forall j, parse (compact j) = Some j;
  compact_nonempty : forall j, compact j <> ""
}.

(** [process.env]. *)
Record Env := { JWT_SECRET : option string }.

(** [ms('7d') / 1000]. *)
Definition sevenDays : Z := 7 * 24 * 60 * 60.

(** [jwt.sign({ userId, organizationId }, secret, { expiresIn: '7d' })] at
    clock [now] (milliseconds, as [Date.now()]). *)
Definition jwt_sign `{Jose} (userId organizationId : string)
    (secret : option string) (now : Z) : JS.completion string :=
  if negb (JS.truthy secret) then
    JS.Throw (JS.Error "Error" "secretOrPrivateKey must have a value")
  else
    let timestamp := now / 1000 in
    let c := {| claim_userId := userId;
                claim_organizationId := organizationId;
                iat := timestamp;
                nbf := None;
                exp := Some (timestamp + sevenDays) |} in
    JS.Return (compact {| claims := c; signature := hmac (default "" secret) c |}).

(** [jwt.verify(token, secret)] at clock [now]: structure, then signature,
    then the time claims. *)
Definition jwt_verify `{Jose} (token : string) (secret : option string)
    (now : Z) : JS.completion Claims :=
  if String.eqb token "" then
    JS.Throw (JS.Error "JsonWebTokenError" "jwt must be provided")
  else
    match parse token with
    | None => JS.Throw (JS.Error "JsonWebTokenError" "jwt malformed")
    | Some jws =>
        if negb (JS.truthy secret) then
          JS.Throw (JS.Error "JsonWebTokenError" "secret or public key must be provided")
        else if negb (String.eqb (signature jws) (hmac (default "" secret) (claims jws))) then
          JS.Throw (JS.Error "JsonWebTokenError" "invalid signature")
        else
          let clockTimestamp := now / 1000 in
          if match nbf (claims jws) with
             | Some n => clockTimestamp <? n
             | None => false
             end then
            JS.Throw (JS.Error "NotBeforeError" "jwt not active")
          else if match exp (claims jws) with
                  | Some e => e <=? clockTimestamp
                  | None => false
                  end then
            JS.Throw (JS.Error "TokenExpiredError" "jwt expired")
          else JS.Return (claims jws)
    end.

(** [generateToken] of [routes/auth.js]. *)
Definition generateToken `{Jose} (env : Env) (now : Z)
    (userId organizationId : string) : JS.completion string :=
  jwt_sign userId organizationId (JWT_SECRET env) now.

(** ** Request authenticator: [auth] *)

(** Lines 8-15: the cookie, else a bearer authorization header. *)
Definition extractToken (req : Request) : option string :=
  let token := cookies_token req in
  if negb (JS.truthy token) && JS.truthy (headers_authorization req) then
    let authHeader := default "" (headers_authorization req) in
    if JS.startsWith authHeader "Bearer " then Some (JS.substring 7 authHeader)
    else token
  else token.

(** [.select('-password')]. *)
Definition select_minus_password (u : User) : User :=
  {| user_id := user_id u; user_email := user_email u; user_password := None;
     user_role := user_role u; user_isActive := user_isActive u;
     user_lastActiveAt := user_lastActiveAt u |}.

Definition noToken : body :=
  [ ("success", JBool false); ("message", JString "Access denied. No token provided.") ].

Definition userNotFound : body :=
  [ ("success", JBool false);
    ("message", JString "Invalid token. User not found or inactive.") ].

Definition organizationNotFound : body :=
  [ ("success", JBool false);
    ("message", JString "Invalid token. Organization not found or inactive.") ].

Definition attach (user : User) (organization : Organization) (req : Request) : Request :=
  {| cookies_token := cookies_token req;
     headers_authorization := headers_authorization req;
     req_user := Some {| userId := user_id user;
                         organizationId := org_id organization;
                         role := user_role user;
                         email := user_email user |};
     req_organization := Some organization |}.

(** The body of the [try] block.  [findById] is the lookup in the store;
    the only call that throws here is [jwt.verify]. *)
Definition auth_try `{Jose} `{UserModel} (env : Env) (now : Z)
    (req : Request) (st : Store) : JS.completion Result :=
  let token := extractToken req in
  if negb (JS.truthy token) then JS.Return (respond 401 noToken req st)
  else
    let! decoded := jwt_verify (default "" token) (JWT_SECRET env) now in
    match select_minus_password <$> userDocs st !! claim_userId decoded with
    | None => JS.Return (respond 401 userNotFound req st)
    | Some user =>
        if negb (user_isActive user) then JS.Return (respond 401 userNotFound req st)
        else
          match orgDocs st !! claim_organizationId decoded with
          | None => JS.Return (respond 401 organizationNotFound req st)
          | Some organization =>
              if negb (org_isActive organization) then
                JS.Return (respond 401 organizationNotFound req st)
              else
                (* not awaited: the promise is dropped *)
                let st' := snd (updateLastActive now user st) in
                JS.Return (next (attach user organization req) st')
          end
    end.

(** The [catch] block, dispatching on [error.name]. *)
Definition auth_catch (error : JS.error) (req : Request) (st : Store) : Result :=
  if String.eqb (JS.name error) "JsonWebTokenError" then
    respond 401 [ ("success", JBool false); ("message", JString "Invalid token.") ] req st
  else if String.eqb (JS.name error) "TokenExpiredError" then
    respond 401 [ ("success", JBool false); ("message", JString "Token expired.") ] req st
  else
    respond 500 [ ("success", JBool false); ("message", JString "Authentication failed.") ]
      req st.

Definition auth `{Jose} `{UserModel} (env : Env) (now : Z)
    (req : Request) (st : Store) : Result :=
  match auth_try env now req st with
  | JS.Return r => r
  | JS.Throw error => auth_catch error req st
  end.

(** ** A concrete instance of the collaborators

    Used to run the middleware on sample requests.  The MAC is the identity
    on keys, and the serialisation writes the binary code of the token after
    a one-letter tag. *)

Module Sample.

Fixpoint bits (p : positive) : string :=
  match p with
  | xH => ""
  | xO q => String "0" (bits q)
  | xI q => String "1" (bits q)
  end.

Fixpoint unbits (s : string) : positive :=
  match s with
  | EmptyString => xH
  | String c r => if Ascii.eqb c "1" then xI (unbits r) else xO (unbits r)
  end.

Definition flat (j : Jws) : string * string * Z * option Z * option Z * string :=
  (claim_userId (claims j), claim_organizationId (claims j), iat (claims j),
   nbf (claims j), exp (claims j), signature j).

Definition unflat (t : string * string * Z * option Z * option Z * string) : Jws :=
  let '(u, o, i, n, e, s) := t in
  {| claims := {| claim_userId := u; claim_organizationId := o;
                  iat := i; nbf := n; exp := e |};
     signature := s |}.

Definition jose : Jose := {|
  hmac := fun k _ => k;
  compact := fun j => String "J" (bits (encode (flat j)));
  parse := fun s =>
    match s with
    | String c r => if Ascii.eqb c "J" then unflat <$> decode (unbits r) else None
    | EmptyString => None
    end
|}.

(** A store whose writes succeed. *)
Definition saving : UserModel := {|
  updateLastActive := fun now u st =>
    (JS.Fulfilled,
     {| userDocs :=
          alter (fun d => {| user_id := user_id d; user_email := user_email d;
                             user_password := user_password d;
                             user_role := user_role d;
                             user_isActive := user_isActive d;
                             user_lastActiveAt := now |}) (user_id u) (userDocs st);
        orgDocs := orgDocs st |})
|}.

(** A store whose writes fail. *)
Definition failing : UserModel := {|
  updateLastActive := fun _ _ st =>
    (JS.Rejected (JS.Error "MongoNetworkError" "connection closed"), st)
|}.

(** A MAC that pads its key with zero bytes, as HMAC does with a key
    shorter than its block: zero bytes at the end of the key do not show in
    the tag. *)
Fixpoint unpad (k : string) : string :=
  match k with
  | EmptyString => EmptyString
  | String c r =>
      match unpad r with
      | EmptyString => if Ascii.eqb c "000" then EmptyString else String c EmptyString
      | r' => String c r'
      end
  end.

Definition padding : Jose := {|
  hmac := fun k _ => unpad k;
  compact := @compact jose;
  parse := @parse jose
|}.

Definition env : Env := {| JWT_SECRET := Some "s3cret" |}.

(** The configured secret with one zero byte more. *)
Definition paddedSecret : string := "s3cret" +:+ String "000" "".

(** A token for u1 of o1 that ran out seven days after the epoch, signed
    under [paddedSecret]. *)
Definition paddedToken : string :=
  let c := {| claim_userId := "u1"; claim_organizationId := "o1";
              iat := 0; nbf := None; exp := Some sevenDays |} in
  @compact padding {| claims := c; signature := @hmac padding paddedSecret c |}.

Definition alice : User :=
  {| user_id := "u1"; user_email := "alice@example.com";
     user_password := Some "$2a$12$hash"; user_role := "admin";
     user_isActive := true; user_lastActiveAt := 0 |}.

Definition bob : User :=
  {| user_id := "u2"; user_email := "bob@example.com";
     user_password := Some "$2a$12$hash"; user_role := "staff";
     user_isActive := false; user_lastActiveAt := 0 |}.

Definition acme (st pl : string) (limit used : Z) (active : bool) : Organization :=
  {| org_id := "o1"; org_isActive := active;
     subscription := {| plan := pl; sub_status := st |};
     limits := {| users := 5; aiCredits := limit; storage := 1024; documents := 100 |};
     usage := {| users := 1; aiCredits := used; storage := 0; documents := 0 |} |}.

Definition store : Store :=
  {| userDocs := <["u1" := alice]> (<["u2" := bob]> ∅);
     orgDocs := <["o1" := acme "active" "starter" 1000 995 true]> ∅ |}.

Definition bare (cookie header : option string) : Request :=
  {| cookies_token := cookie; headers_authorization := header;
     req_user := None; req_organization := None |}.

Definition withUser (r : string) : Request :=
  {| cookies_token := None; headers_authorization := None;
     req_user := Some {| userId := "u2"; organizationId := "o1";
                         role := r; email := "bob@example.com" |};
     req_organization := None |}.

Definition withOrganization (o : Organization) : Request :=
  {| cookies_token := None; headers_authorization := None;
     req_user := None; req_organization := Some o |}.

(** The token [jwt.sign] would hand out for the given ids, key and clock. *)
Definition tokenFor (u o key : string) (now : Z) : string :=
  let c := {| claim_userId := u; claim_organizationId := o;
              iat := now / 1000; nbf := None;
              exp := Some (now / 1000 + sevenDays) |} in
  @compact jose {| claims := c; signature := @hmac jose key c |}.

End Sample.

(** ** Routes: guards in front of a handler

    [router.post(path, m1, m2, ..., handler)] runs the middlewares in order,
    each on the request and store the previous one left, until one of them
    answers. *)

Definition Middleware := Request -> Store -> Result.

Fixpoint chain (ms : list Middleware) (req : Request) (st : Store) : Result :=
  match ms with
  | [] => next req st
  | m :: rest =>
      let r := m req st in
      match outcome r with
      | Responded _ => r
      | NextCalled => chain rest (request_after r) (store_after r)
      end
  end.

(** The guards of [/subscribe], [/cancel] and [/invoices] in
    [routes/billing.js]. *)
Definition adminOnly `{Jose} `{UserModel} (env : Env) (now : Z) : list Middleware :=
  [ auth env now; authorize ["admin"] ].

(** The guards of the metered routes, as [/predict] in
    [routes/inventory.js] with ten credits. *)
Definition metered `{Jose} `{UserModel} (env : Env) (now : Z) (credits : Z)
    : list Middleware :=
  [ auth env now; checkAICredits credits ].

(** What makes [auth] let a request through: a token that verifies, naming
    an active account of an active tenant. *)
Definition authenticates `{Jose} (env : Env) (now : Z) (req : Request) (st : Store)
    (user : User) (organization : Organization) : Prop :=
  exists token decoded,
    extractToken req = Some token
    /\ jwt_verify token (JWT_SECRET env) now = JS.Return decoded
    /\ userDocs st !! claim_userId decoded = Some user
    /\ user_isActive user = true
    /\ orgDocs st !! claim_organizationId decoded = Some organization
    /\ org_isActive organization = true.

(** ** Session routes of [routes/auth.js] *)

(** The options object passed to [res.cookie]. *)
Record CookieOptions := {
  httpOnly : bool;
  secure : bool;
  sameSite : string;
  maxAge : Z
}.

Inductive CookieOp :=
| SetCookie (name value : string) (options : CookieOptions)
| ClearCookie (name : string).

(** What a route handler sends: the status ([res.json] alone sends 200), the
    cookie operations in order, and the body. *)
Record Reply := {
  reply_status : Z;
  reply_cookies : list CookieOp;
  reply_body : body
}.

(** The reply of a guard that answered: guards set no cookie. *)
Definition guardReply (res : Response) : Reply :=
  {| reply_status := status res; reply_cookies := []; reply_body := payload res |}.

(** The cookie options the register, login and refresh routes share;
    [nodeEnv] is [process.env.NODE_ENV]. *)
Definition sessionCookie (nodeEnv : option string) : CookieOptions :=
  {| httpOnly := true;
     secure := match nodeEnv with
               | Some e => String.eqb e "production"
               | None => false
               end;
     sameSite := "strict";
     maxAge := 7 * 24 * 60 * 60 * 1000 |}.

(** The handler of [POST /refresh].  Reading [req.user.userId] without a
    context throws a TypeError, which the handler's own [catch] turns into
    the same 500 as a failure of [generateToken]. *)
Definition refreshHandler `{Jose} (env : Env) (nodeEnv : option string) (now : Z)
    (req : Request) : Reply :=
  let attempt :=
    match req_user req with
    | None =>
        JS.Throw (JS.Error "TypeError" "Cannot read properties of undefined")
    | Some u => generateToken env now (userId u) (organizationId u)
    end in
  match attempt with
  | JS.Return token =>
      {| reply_status := 200;
         reply_cookies := [ SetCookie "token" token (sessionCookie nodeEnv) ];
         reply_body := [ ("success", JBool true);
                         ("message", JString "Token refreshed successfully") ] |}
  | JS.Throw _ =>
      {| reply_status := 500;
         reply_cookies := [];
         reply_body := [ ("success", JBool false);
                         ("message", JString "Failed to refresh token") ] |}
  end.

(** [router.post('/refresh', auth, handler)]; [now] is the clock when [auth]
    runs and [later] the clock when the handler signs. *)
Definition refresh `{Jose} `{UserModel} (env : Env) (nodeEnv : option string)
    (now later : Z) (req : Request) (st : Store) : Reply * Store :=
  let r := auth env now req st in
  match outcome r with
  | Responded res => (guardReply res, store_after r)
  | NextCalled => (refreshHandler env nodeEnv later (request_after r), store_after r)
  end.

(** ** Helpers of [utils/helpers.js]

    One character of the model is one code unit of the JavaScript string;
    the model has the code units below 256 (the Latin-1 range), and text
    with others is outside it. *)

From stdpp Require Import pretty.

Local Open Scope Z_scope.

Module Text.

Definition code (c : ascii) : N := N_of_ascii c.

Definition between (lo hi : N) (c : ascii) : bool :=
  ((lo <=? code c) && (code c <=? hi))%N.

(** The character classes of the regular expressions. *)
Definition isLower : ascii -> bool := between 97 122.
(** The code units [toLowerCase] changes: A-Z and, above 127, the capital
    letters from 192 to 222 without the multiplication sign at 215. *)
Definition isUpper (c : ascii) : bool :=
  between 65 90 c || (between 192 222 c && negb (code c =? 215)%N).
Definition isDigit : ascii -> bool := between 48 57.
Definition isDash (c : ascii) : bool := Ascii.eqb c "-".
Definition isAngle (c : ascii) : bool := Ascii.eqb c "<" || Ascii.eqb c ">".

(** [\s], and what [trim] strips: tab, line feed, vertical tab, form feed,
    carriage return, space and the no-break space at 160. *)
Definition isSpace (c : ascii) : bool :=
  between 9 13 c || Ascii.eqb c " " || (code c =? 160)%N.

(** [toLowerCase]. *)
Definition lower (c : ascii) : ascii :=
  if isUpper c then ascii_of_N (code c + 32) else c.

Fixpoint map (f : ascii -> ascii) (s : string) : string :=
  match s with
  | EmptyString => EmptyString
  | String c r => String (f c) (map f r)
  end.

(** [s.replace(/[class]/g, '')] for the characters outside [keep]. *)
Fixpoint filter (keep : ascii -> bool) (s : string) : string :=
  match s with
  | EmptyString => EmptyString
  | String c r => if keep c then String c (filter keep r) else filter keep r
  end.

(** [s.replace(/[class]+/g, '-')]: every maximal run of characters of the
    class becomes one dash.  [inRun] tells that the previous character was
    of the class. *)
Fixpoint dashRuns (class : ascii -> bool) (inRun : bool) (s : string) : string :=
  match s with
  | EmptyString => EmptyString
  | String c r =>
      if class c then
        if inRun then dashRuns class true r
        else String "-" (dashRuns class true r)
      else String c (dashRuns class false r)
  end.

Fixpoint trimStart (s : string) : string :=
  match s with
  | EmptyString => EmptyString
  | String c r => if isSpace c then trimStart r else s
  end.

Fixpoint trimEnd (s : string) : string :=
  match s with
  | EmptyString => EmptyString
  | String c r =>
      match trimEnd r with
      | EmptyString => if isSpace c then EmptyString else String c EmptyString
      | r' => String c r'
      end
  end.

(** [s.trim()]; an argument, as in [trim('-')], is ignored. *)
Definition trim (s : string) : string := trimEnd (trimStart s).

Fixpoint every (p : ascii -> bool) (s : string) : bool :=
  match s with
  | EmptyString => true
  | String c r => p c && every p r
  end.

(** No two dashes in a row. *)
Fixpoint singleDashes (s : string) : bool :=
  match s with
  | String c1 ((String c2 _) as r) => negb (isDash c1 && isDash c2) && singleDashes r
  | _ => true
  end.

End Text.

Definition startsWithDash (s : string) : bool :=
  match s with
  | String c _ => Text.isDash c
  | EmptyString => false
  end.

(** The characters a slug is made of. *)
Definition isSlugChar (c : ascii) : bool :=
  Text.isLower c || Text.isDigit c || Text.isDash c.

(** The first statement of [generateSlug]. *)
Definition baseSlug (name : string) : string :=
  Text.trim
    (Text.dashRuns Text.isDash false
       (Text.dashRuns Text.isSpace false
          (Text.filter
             (fun c => Text.isLower c || Text.isDigit c || Text.isSpace c || Text.isDash c)
             (Text.map Text.lower name)))).

(** [`${baseSlug}-${counter}`]. *)
Definition numbered (base : string) (counter : nat) : string :=
  base +:+ "-" +:+ pretty counter.

(** The [while] loop of [generateSlug]; [taken] are the slugs for which
    [Organization.findBySlug] finds a document.  [None] when the fuel runs
    out before a free slug is met. *)
Fixpoint slugLoop (taken : gset string) (base slug : string) (counter : nat)
    (fuel : nat) : option string :=
  match fuel with
  | O => None
  | S fuel' =>
      if bool_decide (slug ∈ taken) then
        slugLoop taken base (numbered base counter) (S counter) fuel'
      else Some slug
  end.

Definition generateSlug (fuel : nat) (taken : gset string) (name : string)
    : option string :=
  slugLoop taken (baseSlug name) (baseSlug name) 1 fuel.

(** [sanitizeInput] on a string. *)
Definition sanitizeInput (input : string) : string :=
  String.substring 0 1000
    (Text.filter (fun c => negb (Text.isAngle c)) (Text.trim input)).

(** [calculateAICredits]: the cost table. *)
Definition costs (simple medium complex : Z) : gmap string Z :=
  <["simple" := simple]> (<["medium" := medium]> (<["complex" := complex]> ∅)).

Definition baseCosts : gmap string (gmap string Z) :=
  <["document-ocr" := costs 2 5 10]>
  (<["chat-message" := costs 1 2 5]>
  (<["content-generation" := costs 3 8 15]>
  (<["seo-analysis" := costs 2 4 8]>
  (<["inventory-prediction" := costs 5 10 20]>
  (<["report-generation" := costs 3 7 12]> ∅))))).

(** What [calculateAICredits] returns: a number of credits, or, when a name
    left the table through a member inherited from [Object.prototype],
    whatever that member led to, which is not followed here. *)
Inductive credits :=
| Credits (n : Z)
| Inherited.

(** [baseCosts[operation]?.[complexity] || 1], with [complexity] defaulting
    to 'medium' when it is not passed. *)
Definition calculateAICredits (operation : string) (complexity : option string)
    : credits :=
  let complexity := default "medium" complexity in
  match baseCosts !! operation with
  | Some table =>
      match table !! complexity with
      | Some n => if n =? 0 then Credits 1 else Credits n
      | None =>
          match JS.objectPrototype !! complexity with
          | Some _ => Inherited
          | None => Credits 1
          end
      end
  | None =>
      match JS.objectPrototype !! operation with
      | Some _ => Inherited
      | None => Credits 1
      end
  end.

(** [getPaginationMeta].  Page numbers and counts are integers, for which
    (up to 2^53) the ceiling of the floating-point quotient is the exact
    one, as are [page + 1] and [page - 1]; a quotient by zero is one of the
    non-finite numbers. *)

(** [Number.isSafeInteger]. *)
Definition safeInteger (z : Z) : Prop := - 2 ^ 53 < z < 2 ^ 53.

Inductive number :=
| Finite (n : Z)
| PlusInfinity
| MinusInfinity
| NaN.

(** [Math.ceil(total / limit)]. *)
Definition ceilDiv (total limit : Z) : number :=
  if limit =? 0 then
    if 0 <? total then PlusInfinity
    else if total <? 0 then MinusInfinity
    else NaN
  else Finite (- ((- total) / limit)).

(** [page < n]. *)
Definition ltNumber (page : Z) (n : number) : bool :=
  match n with
  | Finite z => page <? z
  | PlusInfinity => true
  | MinusInfinity => false
  | NaN => false
  end.

Record PaginationMeta := {
  currentPage : Z;
  totalPages : number;
  totalItems : Z;
  itemsPerPage : Z;
  hasNextPage : bool;
  hasPrevPage : bool;
  nextPage : option Z;
  prevPage : option Z
}.

Definition getPaginationMeta (page limit total : Z) : PaginationMeta :=
  let totalPages := ceilDiv total limit in
  let hasNextPage := ltNumber page totalPages in
  let hasPrevPage := 1 <? page in
  {| currentPage := page;
     totalPages := totalPages;
     totalItems := total;
     itemsPerPage := limit;
     hasNextPage := hasNextPage;
     hasPrevPage := hasPrevPage;
     nextPage := if hasNextPage then Some (page + 1) else None;
     prevPage := if hasPrevPage then Some (page - 1) else None |}.

(** [retryWithBackoff].  [fn i] is how the call of [fn] in iteration [i]
    completes; a run records how the promise settles (the thrown value is
    [undefined] when no call was made), how often [fn] was called and the
    delays that were waited for, in order. *)
Inductive settlement (A : Type) :=
| Resolves (a : A)
| Rejects (thrown : option JS.error).
Arguments Resolves {A} a.
Arguments Rejects {A} thrown.

Record Run (A : Type) := {
  settles : settlement A;
  calls : nat;
  sleeps : list Z
}.
Arguments settles {A} r.
Arguments calls {A} r.
Arguments sleeps {A} r.

(** The [for] loop from iteration [i] on; [remaining] counts the iterations
    the test [i < maxRetries] still admits. *)
Fixpoint retryFrom {A : Type} (fn : nat -> JS.completion A)
    (maxRetries baseDelay : Z) (i : nat) (lastError : option JS.error)
    (remaining : nat) : Run A :=
  match remaining with
  | O => {| settles := Rejects lastError; calls := i; sleeps := [] |}
  | S remaining' =>
      match fn i with
      | JS.Return a => {| settles := Resolves a; calls := S i; sleeps := [] |}
      | JS.Throw error =>
          if Z.of_nat i =? maxRetries - 1 then
            {| settles := Rejects (Some error); calls := S i; sleeps := [] |}
          else
            let delayTime := baseDelay * 2 ^ Z.of_nat i in
            let r := retryFrom fn maxRetries baseDelay (S i) (Some error) remaining' in
            {| settles := settles r; calls := calls r; sleeps := delayTime :: sleeps r |}
      end
  end.

Definition retryWithBackoff {A : Type} (fn : nat -> JS.completion A)
    (maxRetries baseDelay : Z) : Run A :=
  retryFrom fn maxRetries baseDelay 0 None (Z.to_nat maxRetries).

(** The delays before the retries number 1 to [k]. *)
Definition backoff (baseDelay : Z) (k : nat) : list Z :=
  (fun i => baseDelay * 2 ^ Z.of_nat i) <$> seq 0 k.

Definition totalDelay (delays : list Z) : Z := foldr Z.add 0 delays.

(** ** The login route of [routes/auth.js] *)

(** Bodies with nested objects and arrays. *)
Local Unset Elimination Schemes.

Inductive data :=
| DNull
| DBool (b : bool)
| DNumber (n : Z)
| DString (s : string)
| DArray (items : list data)
| DObject (fields : list (string * data)).

Local Set Elimination Schemes.

Record Answer := {
  answer_status : Z;
  answer_cookies : list CookieOp;
  answer_body : data
}.

(** The tenant as [populate('organizationId')] puts it into the account:
    the document the gates read, with its name, its slug and the
    subscription sub-document as it serialises. *)
Record PopulatedOrganization := {
  populated_doc : Organization;
  populated_name : string;
  populated_slug : string;
  populated_subscription : data
}.

(** The account [User.findByEmail(email).populate('organizationId')]
    resolves to; the tenant is [null] when the referenced document is
    gone. *)
Record PopulatedUser := {
  found_doc : User;
  found_firstName : string;
  found_lastName : string;
  found_lastLoginAt : Z;
  found_loginCount : Z;
  found_organization : option PopulatedOrganization
}.

(** The model methods the login route awaits, none of them among the
    sources: the lookup by email, the password comparison, and
    [updateLastActive] on the document the route has just stamped. *)
Class Accounts := {
  findByEmail : string -> Store -> JS.completion (option PopulatedUser);
  comparePassword : PopulatedUser -> string -> JS.completion bool;
  saveLastActive : Z -> PopulatedUser -> Store -> JS.promise * Store
}.

Definition isDevelopment (nodeEnv : option string) : bool :=
  match nodeEnv with
  | Some e => String.eqb e "development"
  | None => false
  end.

(** The [catch] block: a 500 that shows the error message in development
    only. *)
Definition loginFailed (nodeEnv : option string) (error : JS.error) : Answer :=
  {| answer_status := 500;
     answer_cookies := [];
     answer_body :=
       DObject ([ ("success", DBool false); ("message", DString "Login failed") ]
                ++ (if isDevelopment nodeEnv
                    then [ ("error", DString (JS.message error)) ] else [])) |}.

Definition refused (code : Z) (message : string) : Answer :=
  {| answer_status := code;
     answer_cookies := [];
     answer_body := DObject [ ("success", DBool false); ("message", DString message) ] |}.

(** [POST /login] for a request whose validation produced
    [validationErrors] and whose body, once the validators have normalised
    it, holds [email] and [password]. *)
Definition login `{Jose} `{Accounts} (env : Env) (nodeEnv : option string) (now : Z)
    (validationErrors : list data) (email password : string) (st : Store)
    : Answer * Store :=
  match validationErrors with
  | _ :: _ =>
      ({| answer_status := 400;
          answer_cookies := [];
          answer_body := DObject [ ("success", DBool false);
                                   ("message", DString "Validation failed");
                                   ("errors", DArray validationErrors) ] |}, st)
  | [] =>
      match findByEmail email st with
      | JS.Throw error => (loginFailed nodeEnv error, st)
      | JS.Return None => (refused 401 "Invalid credentials", st)
      | JS.Return (Some user) =>
          match comparePassword user password with
          | JS.Throw error => (loginFailed nodeEnv error, st)
          | JS.Return false => (refused 401 "Invalid credentials", st)
          | JS.Return true =>
              if negb (user_isActive (found_doc user)) then
                (refused 401 "Account is deactivated", st)
              else
                match found_organization user with
                | None =>
                    (loginFailed nodeEnv
                       (JS.Error "TypeError" "Cannot read properties of null"), st)
                | Some organization =>
                    if negb (org_isActive (populated_doc organization)) then
                      (refused 401 "Organization is deactivated", st)
                    else
                      let stamped :=
                        {| found_doc := found_doc user;
                           found_firstName := found_firstName user;
                           found_lastName := found_lastName user;
                           found_lastLoginAt := now;
                           found_loginCount := found_loginCount user + 1;
                           found_organization := found_organization user |} in
                      match saveLastActive now stamped st with
                      | (JS.Rejected error, st') => (loginFailed nodeEnv error, st')
                      | (JS.Fulfilled, st') =>
                          match generateToken env now
                                  (user_id (found_doc user))
                                  (org_id (populated_doc organization)) with
                          | JS.Throw error => (loginFailed nodeEnv error, st')
                          | JS.Return token =>
                              ({| answer_status := 200;
                                  answer_cookies :=
                                    [ SetCookie "token" token (sessionCookie nodeEnv) ];
                                  answer_body :=
                                    DObject
                                      [ ("success", DBool true);
                                        ("message", DString "Login successful");
                                        ("data",
                                          DObject
                                            [ ("user",
                                                DObject
                                                  [ ("id", DString (user_id (found_doc user)));
                                                    ("email", DString (user_email (found_doc user)));
                                                    ("firstName", DString (found_firstName user));
                                                    ("lastName", DString (found_lastName user));
                                                    ("role", DString (user_role (found_doc user))) ]);
                                              ("organization",
                                                DObject
                                                  [ ("id", DString (org_id (populated_doc organization)));
                                                    ("name", DString (populated_name organization));
                                                    ("slug", DString (populated_slug organization));
                                                    ("subscription",
                                                      populated_subscription organization) ]) ]) ] |},
                               st')
                          end
                      end
                end
          end
      end
  end.

Module SampleLogin.

Definition acme : PopulatedOrganization :=
  {| populated_doc := Sample.acme "active" "starter" 1000 995 true;
     populated_name := "Acme";
     populated_slug := "acme";
     populated_subscription :=
       DObject [ ("plan", DString "starter"); ("status", DString "active") ] |}.

Definition alice : PopulatedUser :=
  {| found_doc := Sample.alice;
     found_firstName := "Alice";
     found_lastName := "Liddell";
     found_lastLoginAt := 0;
     found_loginCount := 3;
     found_organization := Some acme |}.

(** One account, known by its email, whose password is "wonderland";
    [saves] tells whether the save of the stamped document succeeds. *)
Definition accounts (saves : bool) : Accounts := {|
  findByEmail := fun email _ =>
    JS.Return (if String.eqb email "alice@example.com" then Some alice else None);
  comparePassword := fun _ password => JS.Return (String.eqb password "wonderland");
  saveLastActive := fun _ _ st =>
    (if saves then JS.Fulfilled
     else JS.Rejected (JS.Error "MongoNetworkError" "connection closed"), st)
|}.

End SampleLogin.

(** ** Regular expressions, for [isValidEmail]

    A pattern between [^] and [$] is tested against the whole string;
    matching is by derivatives. *)

Inductive regex :=
| Never
| Epsilon
| Class (p : ascii -> bool)
| Seq (r1 r2 : regex)
| Alt (r1 r2 : regex)
| Star (r : regex).

(** [r+]. *)
Definition Plus (r : regex) : regex := Seq r (Star r).

Fixpoint nullable (r : regex) : bool :=
  match r with
  | Never => false
  | Epsilon => true
  | Class _ => false
  | Seq r1 r2 => nullable r1 && nullable r2
  | Alt r1 r2 => nullable r1 || nullable r2
  | Star _ => true
  end.

Fixpoint derivative (c : ascii) (r : regex) : regex :=
  match r with
  | Never => Never
  | Epsilon => Never
  | Class p => if p c then Epsilon else Never
  | Seq r1 r2 =>
      if nullable r1 then Alt (Seq (derivative c r1) r2) (derivative c r2)
      else Seq (derivative c r1) r2
  | Alt r1 r2 => Alt (derivative c r1) (derivative c r2)
  | Star r1 => Seq (derivative c r1) (Star r1)
  end.

(** [/^r$/.test(s)]. *)
Fixpoint regexTest (r : regex) (s : string) : bool :=
  match s with
  | EmptyString => nullable r
  | String c rest => regexTest (derivative c r) rest
  end.

(** The strings a pattern stands for. *)
Inductive denotes : regex -> string -> Prop :=
| denotes_epsilon : denotes Epsilon ""
| denotes_class p c : p c = true -> denotes (Class p) (String c "")
| denotes_seq r1 r2 s1 s2 : denotes r1 s1 -> denotes r2 s2 -> denotes (Seq r1 r2) (s1 +:+ s2)
| denotes_alt_l r1 r2 s : denotes r1 s -> denotes (Alt r1 r2) s
| denotes_alt_r r1 r2 s : denotes r2 s -> denotes (Alt r1 r2) s
| denotes_star_nil r : denotes (Star r) ""
| denotes_star_cons r s1 s2 :
    denotes r s1 -> denotes (Star r) s2 -> denotes (Star r) (s1 +:+ s2).

(** [[^\s@]]. *)
Definition addressChar (c : ascii) : bool :=
  negb (Text.isSpace c || Ascii.eqb c "@").

(** [/^[^\s@]+@[^\s@]+\.[^\s@]+$/]. *)
Definition emailRegex : regex :=
  Seq (Plus (Class addressChar))
    (Seq (Class (fun c => Ascii.eqb c "@"))
       (Seq (Plus (Class addressChar))
          (Seq (Class (fun c => Ascii.eqb c "."))
             (Plus (Class addressChar))))).

Definition isValidEmail (email : string) : bool := regexTest emailRegex email.

(** * Properties *)

(** ** JavaScript helpers *)

Lemma truthy_Some s : JS.truthy (Some s) = true <-> s <> "".
Proof.
  unfold JS.truthy. destruct (String.eqb_spec s "") as [->|Hne]; simpl.
  - split; [discriminate | congruence].
  - split; [intros _; exact Hne | reflexivity].
Qed.

Lemma truthy_false v : JS.truthy v = false <-> v = None \/ v = Some "".
Proof.
  destruct v as [s|]; simpl.
  - destruct (String.eqb_spec s "") as [->|Hne]; simpl.
    + split; [intros _; right; reflexivity | reflexivity].
    + split; [discriminate | intros [?|?]; congruence].
  - split; [intros _; left; reflexivity | reflexivity].
Qed.

Lemma includes_spec xs x : JS.includes xs x = true <-> x ∈ xs.
Proof.
  unfold JS.includes. rewrite existsb_exists, list_elem_of_In. split.
  - intros (y & Hy & Heq). apply String.eqb_eq in Heq. congruence.
  - intros Hx. exists x. split; [exact Hx | apply String.eqb_refl].
Qed.

Lemma get_ordinary o k :
  ordinary k ->
  JS.get o k = match o !! k with Some n => JS.VNumber n | None => JS.VUndefined end.
Proof. unfold ordinary, JS.get. intros ->. reflexivity. Qed.

(** Against an ordinary right operand, [o[a] < o[b]] holds exactly when both
    names have entries and the entries compare. *)
Lemma lt_get_spec o a b :
  ordinary b ->
  JS.lt (JS.get o a) (JS.get o b) = true <->
  exists x y, o !! a = Some x /\ o !! b = Some y /\ x < y.
Proof.
  intros Hb. rewrite (get_ordinary o b Hb). unfold JS.get.
  destruct (o !! a) as [x|], (o !! b) as [y|]; simpl.
  - rewrite Z.ltb_lt. split.
    + intros Hlt. exists x, y. auto.
    + intros (x' & y' & Hx & Hy & Hlt). congruence.
  - split; [discriminate | intros (? & ? & _ & ? & _); discriminate].
  - destruct (JS.objectPrototype !! a); simpl;
      (split; [discriminate | intros (? & ? & ? & _); discriminate]).
  - destruct (JS.objectPrototype !! a); simpl;
      (split; [discriminate | intros (? & ? & ? & _); discriminate]).
Qed.

(** ** The plan table *)

Lemma rank_tiers :
  rank "starter" = Some 0 /\ rank "business" = Some 1 /\ rank "enterprise" = Some 2.
Proof. repeat split; reflexivity. Qed.

Lemma rank_unknown p :
  p <> "starter" -> p <> "business" -> p <> "enterprise" -> rank p = None.
Proof.
  intros H1 H2 H3. unfold rank, planHierarchy.
  rewrite !lookup_insert_ne by congruence. apply lookup_empty.
Qed.

Lemma rank_Some p r :
  rank p = Some r ->
  (p = "starter" /\ r = 0) \/ (p = "business" /\ r = 1) \/ (p = "enterprise" /\ r = 2).
Proof.
  unfold rank, planHierarchy. rewrite !lookup_insert.
  repeat case_decide; subst; rewrite ?lookup_empty; intros [=]; subst; auto.
Qed.

Lemma tiers_ordinary p r : rank p = Some r -> ordinary p.
Proof.
  intros H. apply rank_Some in H.
  destruct H as [[-> _]|[[-> _]|[-> _]]]; vm_compute; reflexivity.
Qed.

Lemma below_dec_spec cur req :
  ordinary req ->
  JS.lt (JS.get planHierarchy cur) (JS.get planHierarchy req) = true <-> below cur req.
Proof. intros H. apply lt_get_spec, H. Qed.

(** The order on the three tiers is starter < business < enterprise, and it
    is a strict total order on them. *)
Lemma below_tiers :
  below "starter" "business" /\ below "business" "enterprise"
  /\ below "starter" "enterprise".
Proof.
  repeat split; eexists _, _;
    (split; [reflexivity | split; [reflexivity | lia]]).
Qed.

Lemma below_total p q a b :
  rank p = Some a -> rank q = Some b -> below p q \/ p = q \/ below q p.
Proof.
  intros Hp Hq. destruct (Z.lt_trichotomy a b) as [Hlt|[Heq|Hgt]].
  - left. exists a, b. auto.
  - right; left. subst b.
    apply rank_Some in Hp, Hq. intuition (subst; congruence || lia).
  - right; right. exists b, a. auto.
Qed.

(** ** Role authorizer *)

(** C7. A context whose role is outside the allowed roles is answered 403,
    whatever its other fields; a request without context is answered 401;
    and the gate never changes the request or the store. *)
Theorem authorize_gate (roles : list string) (req : Request) (st : Store) :
  (forall u, req_user req = Some u -> role u ∉ roles ->
     outcome (authorize roles req st) =
       Responded {| status := 403;
                    payload := [ ("success", JBool false);
                                 ("message", JString "Access denied. Insufficient permissions.") ] |})
  /\ (req_user req = None ->
      outcome (authorize roles req st) =
        Responded {| status := 401;
                     payload := [ ("success", JBool false);
                                  ("message", JString "Access denied. Authentication required.") ] |})
  /\ request_after (authorize roles req st) = req
  /\ store_after (authorize roles req st) = st.
Proof.
  unfold authorize. repeat split.
  - intros u -> Hout. simpl.
    destruct (JS.includes roles (role u)) eqn:E; [|reflexivity].
    apply includes_spec in E. contradiction.
  - intros ->. reflexivity.
  - destruct (req_user req) as [u|]; [destruct (negb _)|]; reflexivity.
  - destruct (req_user req) as [u|]; [destruct (negb _)|]; reflexivity.
Qed.

Lemma authorize_gate_staff :
  outcome (authorize ["admin"] (Sample.withUser "staff") Sample.store) =
    Responded {| status := 403;
                 payload := [ ("success", JBool false);
                              ("message", JString "Access denied. Insufficient permissions.") ] |}.
Proof.
  refine (proj1 (authorize_gate ["admin"] (Sample.withUser "staff") Sample.store) _ _ _).
  - reflexivity.
  - simpl. rewrite list_elem_of_In. simpl. intros [H|[]]. discriminate H.
Defined.

(** ** Subscription gate *)

(** C4. A tenant whose subscription status is not "active" is answered 403
    with code SUBSCRIPTION_REQUIRED, whatever its plan and whatever plan the
    gate requires; the code is never PLAN_UPGRADE_REQUIRED. *)
Theorem inactive_subscription_rejected
    (requiredPlan : string) (req : Request) (st : Store) (organization : Organization) :
  req_organization req = Some organization ->
  sub_status (subscription organization) <> "active" ->
  exists b,
    checkSubscription requiredPlan req st = respond 403 b req st
    /\ field "success" b = Some (JBool false)
    /\ field "code" b = Some (JString "SUBSCRIPTION_REQUIRED")
    /\ field "code" b <> Some (JString "PLAN_UPGRADE_REQUIRED").
Proof.
  intros Horg Hst. unfold checkSubscription. rewrite Horg.
  destruct (String.eqb_spec (sub_status (subscription organization)) "active")
    as [Heq|_]; [contradiction|]. simpl.
  eexists. split; [reflexivity|]. repeat split. discriminate.
Qed.

Lemma inactive_subscription_past_due_enterprise :
  exists b,
    checkSubscription "starter"
      (Sample.withOrganization (Sample.acme "past_due" "enterprise" 50000 0 true))
      Sample.store
    = respond 403 b
        (Sample.withOrganization (Sample.acme "past_due" "enterprise" 50000 0 true))
        Sample.store
    /\ field "success" b = Some (JBool false)
    /\ field "code" b = Some (JString "SUBSCRIPTION_REQUIRED")
    /\ field "code" b <> Some (JString "PLAN_UPGRADE_REQUIRED").
Proof.
  apply (inactive_subscription_rejected "starter" _ Sample.store
           (Sample.acme "past_due" "enterprise" 50000 0 true)).
  - reflexivity.
  - simpl. discriminate.
Defined.

(** C5. For a tenant with an active subscription the gate answers 403 with
    code PLAN_UPGRADE_REQUIRED, naming the required and the current plan,
    exactly when the current plan ranks strictly below the required one in
    starter < business < enterprise; in every other case it forwards. *)
Theorem plan_upgrade_iff_below
    (requiredPlan : string) (req : Request) (st : Store) (organization : Organization) :
  req_organization req = Some organization ->
  sub_status (subscription organization) = "active" ->
  ordinary requiredPlan ->
  let currentPlan := plan (subscription organization) in
  let upgrade :=
    [ ("success", JBool false);
      ("message", JString (requiredPlan +:+ " plan or higher required."));
      ("code", JString "PLAN_UPGRADE_REQUIRED");
      ("requiredPlan", JString requiredPlan);
      ("currentPlan", JString currentPlan) ] in
  (below currentPlan requiredPlan <->
     checkSubscription requiredPlan req st = respond 403 upgrade req st)
  /\ (~ below currentPlan requiredPlan <->
     checkSubscription requiredPlan req st = next req st)
  /\ below "starter" "business" /\ below "business" "enterprise".
Proof.
  intros Horg Hst Hreq currentPlan upgrade.
  unfold checkSubscription. rewrite Horg, Hst. simpl.
  fold currentPlan.
  pose proof (below_dec_spec currentPlan requiredPlan Hreq) as Hspec.
  destruct (JS.lt _ _) eqn:E.
  - assert (Hb : below currentPlan requiredPlan) by (apply Hspec; reflexivity).
    split; [|split].
    + split; [reflexivity | auto].
    + split; [contradiction | discriminate].
    + split; apply below_tiers.
  - assert (Hb : ~ below currentPlan requiredPlan).
    { intros Hb. apply Hspec in Hb. discriminate. }
    split; [|split].
    + split; [contradiction | discriminate].
    + split; [reflexivity | auto].
    + split; apply below_tiers.
Qed.

Lemma plan_upgrade_starter_to_business :
  checkSubscription "business"
    (Sample.withOrganization (Sample.acme "active" "starter" 1000 0 true)) Sample.store
  = respond 403
      [ ("success", JBool false);
        ("message", JString "business plan or higher required.");
        ("code", JString "PLAN_UPGRADE_REQUIRED");
        ("requiredPlan", JString "business");
        ("currentPlan", JString "starter") ]
      (Sample.withOrganization (Sample.acme "active" "starter" 1000 0 true)) Sample.store.
Proof.
  refine (proj1 (proj1 (plan_upgrade_iff_below "business" _ Sample.store
                          (Sample.acme "active" "starter" 1000 0 true) _ _ _)) _).
  - reflexivity.
  - reflexivity.
  - vm_compute. reflexivity.
  - apply below_tiers.
Defined.

(** C10. A tenant with an active subscription whose plan is none of starter,
    business, enterprise has no entry in the rank table, the comparison with
    the required plan's rank is false, and the gate forwards the request:
    it never answers PLAN_UPGRADE_REQUIRED. *)
Theorem unknown_plan_forwarded
    (requiredPlan : string) (req : Request) (st : Store) (organization : Organization) :
  req_organization req = Some organization ->
  sub_status (subscription organization) = "active" ->
  plan (subscription organization) <> "starter" ->
  plan (subscription organization) <> "business" ->
  plan (subscription organization) <> "enterprise" ->
  ordinary requiredPlan ->
  planHierarchy !! plan (subscription organization) = None
  /\ JS.lt (JS.get planHierarchy (plan (subscription organization)))
           (JS.get planHierarchy requiredPlan) = false
  /\ checkSubscription requiredPlan req st = next req st.
Proof.
  intros Horg Hst H1 H2 H3 Hreq.
  pose proof (rank_unknown _ H1 H2 H3) as Hnone.
  assert (Hlt : JS.lt (JS.get planHierarchy (plan (subscription organization)))
                      (JS.get planHierarchy requiredPlan) = false).
  { apply not_true_is_false. intros Ht.
    apply (below_dec_spec _ _ Hreq) in Ht.
    destruct Ht as (a & b & Ha & _). rewrite Hnone in Ha. discriminate. }
  split; [exact Hnone|]. split; [exact Hlt|].
  unfold checkSubscription. rewrite Horg, Hst. simpl. rewrite Hlt. reflexivity.
Qed.

Lemma unknown_plan_forwarded_premium :
  planHierarchy !! "premium" = None
  /\ JS.lt (JS.get planHierarchy "premium") (JS.get planHierarchy "enterprise") = false
  /\ checkSubscription "enterprise"
       (Sample.withOrganization (Sample.acme "active" "premium" 1000 0 true)) Sample.store
     = next (Sample.withOrganization (Sample.acme "active" "premium" 1000 0 true))
         Sample.store.
Proof.
  apply (unknown_plan_forwarded "enterprise" _ Sample.store
           (Sample.acme "active" "premium" 1000 0 true));
    try reflexivity; simpl; discriminate.
Defined.

(** An inherited member is no rank either: against a tier it compares
    false. *)
Example inherited_name_forwarded :
  checkSubscription "enterprise"
    (Sample.withOrganization (Sample.acme "active" "constructor" 1000 0 true)) Sample.store
  = next (Sample.withOrganization (Sample.acme "active" "constructor" 1000 0 true))
      Sample.store.
Proof. vm_compute. reflexivity. Qed.

(** Two inherited members compare as text, which is why the required plan is
    taken to be [ordinary] above. *)
Example inherited_names_compare_as_text :
  JS.lt (JS.get planHierarchy "constructor") (JS.get planHierarchy "toString") = true.
Proof. vm_compute. reflexivity. Qed.

(** ** Quota gate *)

(** C6. With an unlimited allowance the gate forwards; otherwise, when the
    remaining allowance is below the cost, it answers 403 with code
    AI_CREDITS_EXHAUSTED, [required] the cost and [available] the remainder;
    otherwise it forwards. *)
Theorem quota_gate
    (cost : Z) (req : Request) (st : Store) (organization : Organization) :
  req_organization req = Some organization ->
  0 < cost ->
  let limit := aiCredits (limits organization) in
  let used := aiCredits (usage organization) in
  (limit = unlimited -> checkAICredits cost req st = next req st)
  /\ (limit <> unlimited -> limit - used < cost ->
      checkAICredits cost req st =
        respond 403
          [ ("success", JBool false);
            ("message", JString "Insufficient AI credits. Please upgrade your plan.");
            ("code", JString "AI_CREDITS_EXHAUSTED");
            ("required", JNumber cost);
            ("available", JNumber (limit - used)) ] req st)
  /\ (limit <> unlimited -> cost <= limit - used ->
      checkAICredits cost req st = next req st).
Proof.
  intros Horg Hcost limit used.
  unfold checkAICredits, canUseAICredits. rewrite Horg. fold limit used.
  repeat split.
  - intros ->. reflexivity.
  - intros Hne Hlt.
    destruct (Z.eqb_spec limit unlimited) as [?|_]; [contradiction|].
    destruct (Z.ltb_spec (limit - used) cost) as [_|?]; [reflexivity | lia].
  - intros Hne Hle.
    destruct (Z.eqb_spec limit unlimited) as [?|_]; [contradiction|].
    destruct (Z.ltb_spec (limit - used) cost) as [?|_]; [lia | reflexivity].
Qed.

Lemma quota_gate_five_left :
  checkAICredits 10
    (Sample.withOrganization (Sample.acme "active" "starter" 1000 995 true)) Sample.store
  = respond 403
      [ ("success", JBool false);
        ("message", JString "Insufficient AI credits. Please upgrade your plan.");
        ("code", JString "AI_CREDITS_EXHAUSTED");
        ("required", JNumber 10);
        ("available", JNumber 5) ]
      (Sample.withOrganization (Sample.acme "active" "starter" 1000 995 true)) Sample.store.
Proof.
  refine (proj1 (proj2 (quota_gate 10 _ Sample.store
                          (Sample.acme "active" "starter" 1000 995 true) _ _)) _ _).
  all: try reflexivity; simpl; unfold unlimited; lia.
Defined.

(** ** Token extraction *)

Lemma substring_all s : String.substring 0 (String.length s) s = s.
Proof. induction s as [|c s IH]; simpl; [reflexivity | now rewrite IH]. Qed.

Lemma bearer_value v :
  JS.startsWith ("Bearer " +:+ v) "Bearer " = true
  /\ JS.substring 7 ("Bearer " +:+ v) = v.
Proof.
  split.
  - unfold JS.startsWith. simpl. destruct v; reflexivity.
  - unfold JS.substring. simpl. rewrite Nat.sub_0_r. apply substring_all.
Qed.

Lemma extractToken_cookie req c :
  cookies_token req = Some c -> c <> "" -> extractToken req = Some c.
Proof.
  intros Hc Hne. unfold extractToken. rewrite Hc.
  apply truthy_Some in Hne. rewrite Hne. reflexivity.
Qed.

Lemma extractToken_bearer req v :
  JS.truthy (cookies_token req) = false ->
  headers_authorization req = Some ("Bearer " +:+ v) ->
  extractToken req = Some v.
Proof.
  intros Hc Hh. unfold extractToken. rewrite Hc, Hh.
  destruct (bearer_value v) as [Hp Hs].
  assert (Ht : JS.truthy (Some ("Bearer " +:+ v)) = true)
    by (apply truthy_Some; discriminate).
  rewrite Ht. cbv beta iota zeta delta [negb andb default from_option id].
  rewrite Hp, Hs. reflexivity.
Qed.

(** What [auth] answers depends on the request through the extracted token
    only. *)
Lemma auth_outcome_by_token `{Jose} `{UserModel} env now req req' st :
  extractToken req = extractToken req' ->
  outcome (auth env now req st) = outcome (auth env now req' st).
Proof.
  intros Heq. unfold auth, auth_try. rewrite <- Heq.
  destruct (JS.truthy (extractToken req)); simpl; [|reflexivity].
  destruct (jwt_verify _ _ _) as [decoded|e]; simpl.
  - destruct (userDocs st !! claim_userId decoded) as [u|]; simpl; [|reflexivity].
    destruct (user_isActive u); simpl; [|reflexivity].
    destruct (orgDocs st !! claim_organizationId decoded) as [o|]; simpl; [|reflexivity].
    destruct (org_isActive o); reflexivity.
  - unfold auth_catch. repeat destruct (String.eqb _ _); reflexivity.
Qed.

Lemma auth_no_token `{Jose} `{UserModel} env now req st :
  JS.truthy (extractToken req) = false ->
  auth env now req st = respond 401 noToken req st.
Proof. intros Hf. unfold auth, auth_try. rewrite Hf. reflexivity. Qed.

(** C3, as written, fails on an empty cookie: the cookie is present, yet the
    bearer value of the header is the token that is used. *)
Lemma empty_cookie_yields_to_header :
  cookies_token (Sample.bare (Some "") (Some "Bearer abc")) = Some ""
  /\ extractToken (Sample.bare (Some "") (Some "Bearer abc")) = Some "abc"
  /\ extractToken (Sample.bare (Some "") (Some "Bearer abc"))
     <> extractToken (Sample.bare (Some "") None).
Proof. repeat split. vm_compute. discriminate. Qed.

Lemma extractToken_neither req :
  JS.truthy (cookies_token req) = false ->
  (forall h, headers_authorization req = Some h ->
     JS.startsWith h "Bearer " = false \/ h = "Bearer ") ->
  JS.truthy (extractToken req) = false.
Proof.
  intros Hc Hh. unfold extractToken. rewrite Hc. simpl.
  destruct (headers_authorization req) as [h|] eqn:Eh; [|exact Hc].
  destruct (Hh h eq_refl) as [Hp| ->]; [|reflexivity].
  destruct (JS.truthy (Some h)); [|exact Hc].
  cbv beta iota zeta delta [default from_option id]. rewrite Hp. exact Hc.
Qed.

(** C3, amended. A present and non-empty cookie is the token, and the
    Authorization header has no part in the answer.  With the cookie absent
    or empty, a header "Bearer v" makes [v] the token, and the answer is the
    one a cookie [v] would get.  With the cookie absent or empty and the
    header absent, not beginning with "Bearer ", or with nothing after it,
    there is no token: the request is answered 401 "Access denied. No token
    provided." with success false, as it is whenever no non-empty token
    results. *)
Theorem token_extraction `{Jose} `{UserModel}
    (env : Env) (now : Z) (req : Request) (st : Store) :
  (forall c, cookies_token req = Some c -> c <> "" ->
     extractToken req = Some c
     /\ forall req', cookies_token req' = Some c ->
          extractToken req' = Some c
          /\ outcome (auth env now req' st) = outcome (auth env now req st))
  /\ (forall v, JS.truthy (cookies_token req) = false ->
        headers_authorization req = Some ("Bearer " +:+ v) ->
        extractToken req = Some v
        /\ (v <> "" -> forall req', cookies_token req' = Some v ->
               outcome (auth env now req' st) = outcome (auth env now req st)))
  /\ (JS.truthy (cookies_token req) = false ->
      (forall h, headers_authorization req = Some h ->
         JS.startsWith h "Bearer " = false \/ h = "Bearer ") ->
      auth env now req st =
        respond 401 [ ("success", JBool false);
                      ("message", JString "Access denied. No token provided.") ] req st)
  /\ (JS.truthy (extractToken req) = false ->
        exists b, auth env now req st = respond 401 b req st
                  /\ field "success" b = Some (JBool false)).
Proof.
  split; [|split; [|split]].
  - intros c Hc Hne. pose proof (extractToken_cookie req c Hc Hne) as He.
    split; [exact He|]. intros req' Hc'.
    pose proof (extractToken_cookie req' c Hc' Hne) as He'.
    split; [exact He'|]. apply auth_outcome_by_token. congruence.
  - intros v Hc Hh. pose proof (extractToken_bearer req v Hc Hh) as He.
    split; [exact He|]. intros Hne req' Hc'.
    apply auth_outcome_by_token.
    rewrite (extractToken_cookie req' v Hc' Hne). congruence.
  - intros Hc Hh. apply auth_no_token, extractToken_neither; assumption.
  - intros Hf. exists noToken. split; [apply auth_no_token, Hf | reflexivity].
Qed.

Lemma token_extraction_bearer :
  extractToken (Sample.bare None (Some "Bearer abc")) = Some "abc".
Proof.
  refine (proj1 (proj1 (proj2 (@token_extraction Sample.jose Sample.saving Sample.env 0
                                 (Sample.bare None (Some "Bearer abc")) Sample.store))
                   "abc" _ _)); reflexivity.
Defined.

(** ** Token issuance and verification *)

Lemma truthy_default secret :
  JS.truthy secret = true -> secret = Some (default "" secret) /\ default "" secret <> "".
Proof.
  destruct secret as [k|]; [|discriminate].
  intros Ht. split; [reflexivity | apply truthy_Some, Ht].
Qed.

(** Verifying a token under the key that signed it comes down to the time
    claims. *)
Lemma jwt_verify_own `{Jose} (c : Claims) (key : string) (now : Z) :
  codec_sound -> key <> "" ->
  jwt_verify (compact {| claims := c; signature := hmac key c |}) (Some key) now =
    if match nbf c with Some n => now / 1000 <? n | None => false end then
      JS.Throw (JS.Error "NotBeforeError" "jwt not active")
    else if match exp c with Some e => e <=? now / 1000 | None => false end then
      JS.Throw (JS.Error "TokenExpiredError" "jwt expired")
    else JS.Return c.
Proof.
  intros [Hparse Hne] Hkey. unfold jwt_verify.
  destruct (String.eqb_spec (compact {| claims := c; signature := hmac key c |}) "")
    as [Heq|_]; [destruct (Hne _ Heq)|].
  rewrite Hparse. apply truthy_Some in Hkey. rewrite Hkey.
  cbv beta iota zeta delta [negb default from_option id claims signature].
  rewrite String.eqb_refl. reflexivity.
Qed.

(** Under any other key the signature check fails, before the time claims
    are looked at. *)
Lemma jwt_verify_foreign `{Jose} (c : Claims) (sig : string)
    (secret : option string) (now : Z) :
  codec_sound -> (forall k, secret = Some k -> sig <> hmac k c) ->
  exists msg,
    jwt_verify (compact {| claims := c; signature := sig |}) secret now =
      JS.Throw (JS.Error "JsonWebTokenError" msg).
Proof.
  intros [Hparse Hne] Hdiff. unfold jwt_verify.
  destruct (String.eqb_spec (compact {| claims := c; signature := sig |}) "")
    as [Heq|_]; [destruct (Hne _ Heq)|].
  rewrite Hparse. destruct (JS.truthy secret) eqn:Ht; simpl.
  - destruct secret as [k|]; [|discriminate]. simpl.
    destruct (String.eqb_spec sig (hmac k c)) as [Heq|_]; simpl.
    + destruct (Hdiff k eq_refl Heq).
    + eexists. reflexivity.
  - eexists. reflexivity.
Qed.

Lemma seconds_after (issuedAt now : Z) :
  issuedAt + sevenDays * 1000 < now -> issuedAt / 1000 + sevenDays <= now / 1000.
Proof.
  intros Hlt. rewrite <- Z.div_add by lia.
  apply Z.div_le_mono; lia.
Qed.

Lemma auth_throw `{Jose} `{UserModel} env now req st token e :
  extractToken req = Some token -> token <> "" ->
  jwt_verify token (JWT_SECRET env) now = JS.Throw e ->
  auth env now req st = auth_catch e req st.
Proof.
  intros Htok Hne Hv. unfold auth, auth_try. rewrite Htok.
  apply truthy_Some in Hne. rewrite Hne. simpl. rewrite Hv. reflexivity.
Qed.

Lemma verified_nonempty `{Jose} token secret now decoded :
  jwt_verify token secret now = JS.Return decoded -> token <> "".
Proof. intros Hv ->. unfold jwt_verify in Hv. simpl in Hv. discriminate. Qed.

(** The path of [auth] once the token has verified. *)
Lemma auth_verified `{Jose} `{UserModel} env now req st token decoded :
  extractToken req = Some token ->
  jwt_verify token (JWT_SECRET env) now = JS.Return decoded ->
  auth env now req st =
    match select_minus_password <$> userDocs st !! claim_userId decoded with
    | None => respond 401 userNotFound req st
    | Some user =>
        if negb (user_isActive user) then respond 401 userNotFound req st
        else
          match orgDocs st !! claim_organizationId decoded with
          | None => respond 401 organizationNotFound req st
          | Some organization =>
              if negb (org_isActive organization) then
                respond 401 organizationNotFound req st
              else next (attach user organization req)
                     (snd (updateLastActive now user st))
          end
    end.
Proof.
  intros Htok Hv. pose proof (verified_nonempty _ _ _ _ Hv) as Hne.
  unfold auth, auth_try. rewrite Htok.
  apply truthy_Some in Hne. rewrite Hne. simpl. rewrite Hv. simpl.
  destruct (userDocs st !! claim_userId decoded) as [u|]; simpl; [|reflexivity].
  destruct (user_isActive u); simpl; [|reflexivity].
  destruct (orgDocs st !! claim_organizationId decoded) as [o|]; simpl; [|reflexivity].
  destruct (org_isActive o); reflexivity.
Qed.

(** C1. A token issued for (a, t) verifies to exactly a and t as long as the
    clock, in seconds, is before the embedded expiry of seven days after
    issuance; once the clock is more than seven days past issuance,
    verification throws TokenExpiredError and [auth] answers "Token
    expired.". *)
Theorem token_round_trip `{Jose} `{UserModel}
    (env : Env) (issuedAt : Z) (a t : string) :
  codec_sound ->
  JS.truthy (JWT_SECRET env) = true ->
  exists token,
    generateToken env issuedAt a t = JS.Return token
    /\ (forall now, now / 1000 < issuedAt / 1000 + sevenDays ->
          exists decoded,
            jwt_verify token (JWT_SECRET env) now = JS.Return decoded
            /\ claim_userId decoded = a
            /\ claim_organizationId decoded = t
            /\ exp decoded = Some (issuedAt / 1000 + sevenDays))
    /\ (forall now, issuedAt + sevenDays * 1000 < now ->
          jwt_verify token (JWT_SECRET env) now =
            JS.Throw (JS.Error "TokenExpiredError" "jwt expired")
          /\ forall req st, extractToken req = Some token ->
               auth env now req st =
                 respond 401 [ ("success", JBool false);
                               ("message", JString "Token expired.") ] req st).
Proof.
  intros Hsound Hsecret.
  destruct (truthy_default _ Hsecret) as [Hk Hkne].
  set (key := default "" (JWT_SECRET env)) in *.
  unfold generateToken, jwt_sign. rewrite Hsecret. simpl. fold key.
  eexists. split; [reflexivity|].
  rewrite Hk. split.
  - intros now Hbefore. eexists. rewrite (jwt_verify_own _ _ _ Hsound Hkne). simpl.
    destruct (Z.leb_spec (issuedAt / 1000 + sevenDays) (now / 1000)) as [?|_]; [lia|].
    repeat split; reflexivity.
  - intros now Hafter. apply seconds_after in Hafter.
    assert (Hv : jwt_verify
                   (compact {| claims := {| claim_userId := a; claim_organizationId := t;
                                            iat := issuedAt / 1000; nbf := None;
                                            exp := Some (issuedAt / 1000 + sevenDays) |};
                               signature := hmac key
                                 {| claim_userId := a; claim_organizationId := t;
                                    iat := issuedAt / 1000; nbf := None;
                                    exp := Some (issuedAt / 1000 + sevenDays) |} |})
                   (Some key) now
                 = JS.Throw (JS.Error "TokenExpiredError" "jwt expired")).
    { rewrite (jwt_verify_own _ _ _ Hsound Hkne). simpl.
      destruct (Z.leb_spec (issuedAt / 1000 + sevenDays) (now / 1000)) as [_|?];
        [reflexivity | lia]. }
    split; [exact Hv|]. intros req st Htok.
    rewrite (auth_throw env now req st _
               (JS.Error "TokenExpiredError" "jwt expired") Htok).
    + reflexivity.
    + apply Hsound.
    + rewrite Hk. exact Hv.
Qed.

Lemma sample_codec_sound : @codec_sound Sample.jose.
Proof.
  assert (Hbits : forall p, Sample.unbits (Sample.bits p) = p)
    by (induction p; simpl; congruence).
  split.
  - intros [[u o i n e] s]. simpl. rewrite Hbits, decode_encode. reflexivity.
  - intros j. simpl. discriminate.
Qed.

Lemma sample_padding_sound : @codec_sound Sample.padding.
Proof.
  destruct sample_codec_sound as [Hparse Hne]. split; [exact Hparse | exact Hne].
Qed.

Lemma token_round_trip_sample :
  exists token,
    @generateToken Sample.jose Sample.env 1700000000123 "u1" "o1" = JS.Return token
    /\ (forall now, now / 1000 < 1700000000123 / 1000 + sevenDays ->
          exists decoded,
            @jwt_verify Sample.jose token (JWT_SECRET Sample.env) now = JS.Return decoded
            /\ claim_userId decoded = "u1"
            /\ claim_organizationId decoded = "o1"
            /\ exp decoded = Some (1700000000123 / 1000 + sevenDays))
    /\ (forall now, 1700000000123 + sevenDays * 1000 < now ->
          @jwt_verify Sample.jose token (JWT_SECRET Sample.env) now =
            JS.Throw (JS.Error "TokenExpiredError" "jwt expired")
          /\ forall req st, extractToken req = Some token ->
               @auth Sample.jose Sample.saving Sample.env now req st =
                 respond 401 [ ("success", JBool false);
                               ("message", JString "Token expired.") ] req st).
Proof.
  apply (@token_round_trip Sample.jose Sample.saving Sample.env 1700000000123 "u1" "o1").
  - exact sample_codec_sound.
  - reflexivity.
Defined.

(** C2, as written, fails where two secrets give one tag: under a MAC that
    pads its key, a token signed with the secret followed by a zero byte
    passes the signature check of the verifier, and once it has run out the
    answer is "Token expired.". *)
Lemma padded_secret_is_told_expired :
  JWT_SECRET Sample.env <> Some Sample.paddedSecret
  /\ @jwt_verify Sample.padding Sample.paddedToken (JWT_SECRET Sample.env)
       (sevenDays * 1000)
     = JS.Throw (JS.Error "TokenExpiredError" "jwt expired")
  /\ @auth Sample.padding Sample.saving Sample.env (sevenDays * 1000)
       (Sample.bare (Some Sample.paddedToken) None) Sample.store
     = respond 401 [ ("success", JBool false); ("message", JString "Token expired.") ]
         (Sample.bare (Some Sample.paddedToken) None) Sample.store.
Proof.
  assert (Hv : @jwt_verify Sample.padding Sample.paddedToken (JWT_SECRET Sample.env)
                 (sevenDays * 1000)
               = JS.Throw (JS.Error "TokenExpiredError" "jwt expired")).
  { change (JWT_SECRET Sample.env) with (Some "s3cret").
    change Sample.paddedToken
      with (@compact Sample.padding
              {| claims := {| claim_userId := "u1"; claim_organizationId := "o1";
                              iat := 0; nbf := None; exp := Some sevenDays |};
                 signature :=
                   @hmac Sample.padding "s3cret"
                     {| claim_userId := "u1"; claim_organizationId := "o1";
                        iat := 0; nbf := None; exp := Some sevenDays |} |}).
    rewrite (@jwt_verify_own Sample.padding _ "s3cret" _ sample_padding_sound)
      by discriminate.
    reflexivity. }
  split; [discriminate|]. split; [exact Hv|].
  assert (Htok : extractToken (Sample.bare (Some Sample.paddedToken) None)
                 = Some Sample.paddedToken) by reflexivity.
  rewrite (@auth_throw Sample.padding Sample.saving Sample.env (sevenDays * 1000)
             (Sample.bare (Some Sample.paddedToken) None) Sample.store
             Sample.paddedToken _ Htok (compact_nonempty sample_padding_sound _) Hv).
  reflexivity.
Qed.

(** C2, amended. A token whose signature is not the MAC of its claims under
    the verifier's secret, as is one signed under a secret that gives
    another tag, makes verification throw JsonWebTokenError: [auth] answers
    401 "Invalid token." and not "Token expired.", whatever expiry the token
    carries; so does every token when the verifier has no secret. *)
Theorem foreign_signature_is_invalid `{Jose} `{UserModel}
    (env : Env) (now : Z) (sig : string) (c : Claims) (req : Request) (st : Store) :
  codec_sound ->
  (forall k, JWT_SECRET env = Some k -> sig <> hmac k c) ->
  extractToken req = Some (compact {| claims := c; signature := sig |}) ->
  (exists e,
     jwt_verify (compact {| claims := c; signature := sig |})
       (JWT_SECRET env) now = JS.Throw e
     /\ JS.name e = "JsonWebTokenError"
     /\ JS.name e <> "TokenExpiredError")
  /\ auth env now req st =
       respond 401 [ ("success", JBool false); ("message", JString "Invalid token.") ]
         req st
  /\ outcome (auth env now req st) <>
       Responded {| status := 401;
                    payload := [ ("success", JBool false);
                                 ("message", JString "Token expired.") ] |}.
Proof.
  intros Hsound Hdiff Htok.
  destruct (jwt_verify_foreign c sig (JWT_SECRET env) now Hsound Hdiff)
    as [msg Hv].
  assert (Hauth : auth env now req st =
                    respond 401 [ ("success", JBool false);
                                  ("message", JString "Invalid token.") ] req st).
  { rewrite (auth_throw env now req st _ _ Htok (compact_nonempty Hsound _) Hv).
    reflexivity. }
  split; [|split].
  - eexists. split; [exact Hv|]. split; [reflexivity | discriminate].
  - exact Hauth.
  - rewrite Hauth. discriminate.
Qed.

Lemma foreign_signature_long_lived :
  @auth Sample.jose Sample.saving Sample.env 1000
    (Sample.bare (Some (Sample.tokenFor "u1" "o1" "other" 0)) None) Sample.store
  = respond 401 [ ("success", JBool false); ("message", JString "Invalid token.") ]
      (Sample.bare (Some (Sample.tokenFor "u1" "o1" "other" 0)) None) Sample.store.
Proof.
  refine (proj1 (proj2 (@foreign_signature_is_invalid Sample.jose Sample.saving
                          Sample.env 1000 "other"
                          {| claim_userId := "u1"; claim_organizationId := "o1";
                             iat := 0 / 1000; nbf := None;
                             exp := Some (0 / 1000 + sevenDays) |}
                          _ Sample.store _ _ _))).
  - exact sample_codec_sound.
  - intros k [= <-]. discriminate.
  - reflexivity.
Defined.

(** ** Account and tenant lookup *)

Lemma sample_token_verifies (now : Z) :
  now / 1000 < sevenDays ->
  @jwt_verify Sample.jose (Sample.tokenFor "u1" "o1" "s3cret" 0)
    (JWT_SECRET Sample.env) now =
  JS.Return {| claim_userId := "u1"; claim_organizationId := "o1";
               iat := 0; nbf := None; exp := Some sevenDays |}.
Proof.
  intros Hnow. unfold Sample.tokenFor.
  change (JWT_SECRET Sample.env) with (Some "s3cret").
  rewrite (@jwt_verify_own Sample.jose _ "s3cret" now sample_codec_sound)
    by discriminate.
  change (0 / 1000) with 0. cbn [nbf exp]. change (0 + sevenDays) with sevenDays.
  destruct (Z.leb_spec sevenDays (now / 1000)) as [?|_]; [lia | reflexivity].
Qed.

(** C8. When the token verifies and the account and the tenant are found and
    active, a rejected save of the "last active" time does not turn into a
    rejection of the request: [next] is called, with the context and the
    tenant attached. *)
Theorem last_active_failure_tolerated `{Jose} `{UserModel}
    (env : Env) (now : Z) (req : Request) (st st' : Store)
    (token : string) (decoded : Claims) (user : User) (organization : Organization)
    (reason : JS.error) :
  extractToken req = Some token ->
  jwt_verify token (JWT_SECRET env) now = JS.Return decoded ->
  userDocs st !! claim_userId decoded = Some user ->
  user_isActive user = true ->
  orgDocs st !! claim_organizationId decoded = Some organization ->
  org_isActive organization = true ->
  updateLastActive now (select_minus_password user) st = (JS.Rejected reason, st') ->
  outcome (auth env now req st) = NextCalled
  /\ req_user (request_after (auth env now req st)) =
       Some {| userId := user_id user; organizationId := org_id organization;
               role := user_role user; email := user_email user |}
  /\ req_organization (request_after (auth env now req st)) = Some organization.
Proof.
  intros Htok Hv Hu Hactive Ho Hoactive Hsave.
  rewrite (auth_verified env now req st token decoded Htok Hv).
  rewrite Hu, Ho. simpl. rewrite Hactive, Hoactive. simpl.
  repeat split.
Qed.

Lemma last_active_failure_tolerated_sample :
  outcome (@auth Sample.jose Sample.failing Sample.env 1000
             (Sample.bare (Some (Sample.tokenFor "u1" "o1" "s3cret" 0)) None)
             Sample.store) = NextCalled.
Proof.
  refine (proj1 (@last_active_failure_tolerated Sample.jose Sample.failing
                   Sample.env 1000
                   (Sample.bare (Some (Sample.tokenFor "u1" "o1" "s3cret" 0)) None)
                   Sample.store Sample.store
                   (Sample.tokenFor "u1" "o1" "s3cret" 0)
                   {| claim_userId := "u1"; claim_organizationId := "o1";
                      iat := 0; nbf := None; exp := Some sevenDays |}
                   Sample.alice (Sample.acme "active" "starter" 1000 995 true)
                   (JS.Error "MongoNetworkError" "connection closed")
                   _ _ _ _ _ _ _)).
  - reflexivity.
  - apply sample_token_verifies. reflexivity.
  - reflexivity.
  - reflexivity.
  - reflexivity.
  - reflexivity.
  - reflexivity.
Defined.

(** C9. For a token that verifies, [auth] answers a missing account and a
    deactivated one with the same 401 and the same body, and likewise a
    missing tenant and a deactivated one: the two runs cannot be told
    apart by the answer. *)
Theorem missing_and_inactive_conflated `{Jose} `{UserModel}
    (env : Env) (now : Z) (req : Request) (token : string) (decoded : Claims)
    (st1 st2 : Store) :
  extractToken req = Some token ->
  jwt_verify token (JWT_SECRET env) now = JS.Return decoded ->
  (forall u,
     userDocs st1 !! claim_userId decoded = None ->
     userDocs st2 !! claim_userId decoded = Some u -> user_isActive u = false ->
     outcome (auth env now req st1) = outcome (auth env now req st2)
     /\ outcome (auth env now req st2) =
          Responded {| status := 401; payload := userNotFound |})
  /\ (forall u1 u2 o,
        userDocs st1 !! claim_userId decoded = Some u1 -> user_isActive u1 = true ->
        userDocs st2 !! claim_userId decoded = Some u2 -> user_isActive u2 = true ->
        orgDocs st1 !! claim_organizationId decoded = None ->
        orgDocs st2 !! claim_organizationId decoded = Some o -> org_isActive o = false ->
        outcome (auth env now req st1) = outcome (auth env now req st2)
        /\ outcome (auth env now req st2) =
             Responded {| status := 401; payload := organizationNotFound |}).
Proof.
  intros Htok Hv. split.
  - intros u Hnone Hsome Hinactive.
    rewrite !(auth_verified env now req _ token decoded Htok Hv).
    rewrite Hnone, Hsome. simpl. rewrite Hinactive. simpl. split; reflexivity.
  - intros u1 u2 o Hu1 Ha1 Hu2 Ha2 Hnone Hsome Hinactive.
    rewrite !(auth_verified env now req _ token decoded Htok Hv).
    rewrite Hu1, Hu2, Hnone, Hsome. simpl. rewrite Ha1, Ha2, Hinactive. simpl.
    split; reflexivity.
Qed.

Lemma missing_and_inactive_conflated_sample :
  outcome (@auth Sample.jose Sample.saving Sample.env 1000
             (Sample.bare (Some (Sample.tokenFor "u1" "o1" "s3cret" 0)) None)
             {| userDocs := ∅; orgDocs := ∅ |})
  = outcome (@auth Sample.jose Sample.saving Sample.env 1000
               (Sample.bare (Some (Sample.tokenFor "u1" "o1" "s3cret" 0)) None)
               {| userDocs := <["u1" := Sample.bob]> ∅; orgDocs := ∅ |}).
Proof.
  refine (proj1 (proj1 (@missing_and_inactive_conflated Sample.jose Sample.saving
                          Sample.env 1000
                          (Sample.bare (Some (Sample.tokenFor "u1" "o1" "s3cret" 0)) None)
                          (Sample.tokenFor "u1" "o1" "s3cret" 0)
                          {| claim_userId := "u1"; claim_organizationId := "o1";
                             iat := 0; nbf := None; exp := Some sevenDays |}
                          {| userDocs := ∅; orgDocs := ∅ |}
                          {| userDocs := <["u1" := Sample.bob]> ∅; orgDocs := ∅ |}
                          _ _) Sample.bob _ _ _)).
  - reflexivity.
  - apply sample_token_verifies. reflexivity.
  - reflexivity.
  - reflexivity.
  - reflexivity.
Defined.

(** * Further properties of the middleware *)

(** ** The request authenticator as a whole *)

(** Splitting [auth] along its branches. *)
Ltac auth_branches env now req st :=
  unfold auth, auth_try;
  destruct (extractToken req) as [token|] eqn:Htok; simpl;
  [ destruct (String.eqb token "") eqn:Hempty; simpl;
    [ | destruct (jwt_verify token (JWT_SECRET env) now) as [decoded|e] eqn:Hv; simpl;
        [ destruct (userDocs st !! claim_userId decoded) as [u|] eqn:Hu; simpl;
          [ destruct (user_isActive u) eqn:Hua; simpl;
            [ destruct (orgDocs st !! claim_organizationId decoded) as [o|] eqn:Ho;
                simpl;
              [ destruct (org_isActive o) eqn:Hoa; simpl | ]
            | ]
          | ]
        | unfold auth_catch; repeat destruct (String.eqb (JS.name e) _); simpl ] ]
  | ].

Lemma auth_authenticated `{Jose} `{UserModel}
    (env : Env) (now : Z) (req : Request) (st : Store) user organization :
  authenticates env now req st user organization ->
  auth env now req st =
    next (attach (select_minus_password user) organization req)
         (snd (updateLastActive now (select_minus_password user) st)).
Proof.
  intros (token & decoded & Htok & Hv & Hu & Hua & Hoo & Hoa).
  rewrite (auth_verified env now req st token decoded Htok Hv).
  rewrite Hu, Hoo. simpl. rewrite Hua, Hoa. reflexivity.
Qed.

Lemma auth_next_inv `{Jose} `{UserModel}
    (env : Env) (now : Z) (req : Request) (st : Store) :
  outcome (auth env now req st) = NextCalled ->
  exists user organization, authenticates env now req st user organization.
Proof.
  auth_branches env now req st; try discriminate.
  intros _. exists u, o, token, decoded. auto 10.
Qed.

Lemma auth_responded_status `{Jose} `{UserModel}
    (env : Env) (now : Z) (req : Request) (st : Store) (res : Response) :
  outcome (auth env now req st) = Responded res ->
  status res = 401 \/ status res = 500.
Proof.
  auth_branches env now req st; try discriminate; intros [= <-]; auto.
Qed.

(** X1. [auth] calls [next] exactly for a token that verifies and names an active
    account of an active tenant; it then attaches that account, without its
    password, and that tenant, and leaves the store as the "last active"
    update left it. *)
Theorem auth_forwards_iff `{Jose} `{UserModel}
    (env : Env) (now : Z) (req : Request) (st : Store) :
  (outcome (auth env now req st) = NextCalled <->
     exists user organization, authenticates env now req st user organization)
  /\ (forall user organization,
        authenticates env now req st user organization ->
        auth env now req st =
          next (attach (select_minus_password user) organization req)
               (snd (updateLastActive now (select_minus_password user) st))).
Proof.
  split; [split|].
  - apply auth_next_inv.
  - intros (u & o & Hauth). rewrite (auth_authenticated env now req st u o Hauth).
    reflexivity.
  - intros u o Hauth. apply auth_authenticated, Hauth.
Qed.

(** X2. Whenever [auth] answers by itself, the status is 401 or 500, the body
    says [success: false], and neither the request nor the store has been
    touched: a rejected request leaves no trace. *)
Theorem auth_rejection_leaves_no_trace `{Jose} `{UserModel}
    (env : Env) (now : Z) (req : Request) (st : Store) (res : Response) :
  outcome (auth env now req st) = Responded res ->
  (status res = 401 \/ status res = 500)
  /\ field "success" (payload res) = Some (JBool false)
  /\ request_after (auth env now req st) = req
  /\ store_after (auth env now req st) = st.
Proof.
  intros Hres. split; [exact (auth_responded_status env now req st res Hres)|].
  revert Hres. auth_branches env now req st; try discriminate;
    intros [= <-]; repeat split.
Qed.

Lemma auth_rejection_leaves_no_trace_sample :
  request_after (@auth Sample.jose Sample.saving Sample.env 0
                   (Sample.bare None None) Sample.store) = Sample.bare None None
  /\ store_after (@auth Sample.jose Sample.saving Sample.env 0
                    (Sample.bare None None) Sample.store) = Sample.store.
Proof.
  refine (proj2 (proj2 (@auth_rejection_leaves_no_trace Sample.jose Sample.saving
                          Sample.env 0 (Sample.bare None None) Sample.store
                          {| status := 401; payload := noToken |} _))).
  reflexivity.
Defined.

(** X3. Without a usable cookie, an Authorization header that does not begin
    with "Bearer " in exactly this spelling, or that carries nothing after
    it, counts as no token at all. *)
Theorem auth_needs_bearer `{Jose} `{UserModel}
    (env : Env) (now : Z) (req : Request) (st : Store) :
  JS.truthy (cookies_token req) = false ->
  (forall h, headers_authorization req = Some h ->
     JS.startsWith h "Bearer " = false \/ h = "Bearer ") ->
  auth env now req st = respond 401 noToken req st.
Proof.
  intros Hc Hh. apply auth_no_token. unfold extractToken. rewrite Hc. simpl.
  destruct (headers_authorization req) as [h|] eqn:Eh.
  - destruct (Hh h eq_refl) as [Hp| ->].
    + destruct (JS.truthy (Some h)); simpl; [|exact Hc].
      cbv beta iota zeta delta [default from_option id]. rewrite Hp. exact Hc.
    + reflexivity.
  - simpl. exact Hc.
Qed.

Lemma auth_needs_bearer_lowercase :
  @auth Sample.jose Sample.saving Sample.env 0
    (Sample.bare None (Some "bearer abc")) Sample.store
  = respond 401 noToken (Sample.bare None (Some "bearer abc")) Sample.store.
Proof.
  apply (@auth_needs_bearer Sample.jose Sample.saving).
  - reflexivity.
  - intros h [= <-]. left. reflexivity.
Defined.

(** X4. A token of the right key whose not-before time lies ahead makes
    [jwt.verify] throw an error that the handler has no case for: the answer
    is the generic 500, not a 401. *)
Theorem auth_not_before_is_500 `{Jose} `{UserModel}
    (env : Env) (now : Z) (key : string) (c : Claims) (n : Z)
    (req : Request) (st : Store) :
  codec_sound ->
  JWT_SECRET env = Some key -> key <> "" ->
  nbf c = Some n -> now / 1000 < n ->
  extractToken req = Some (compact {| claims := c; signature := hmac key c |}) ->
  auth env now req st =
    respond 500 [ ("success", JBool false); ("message", JString "Authentication failed.") ]
      req st.
Proof.
  intros Hsound Hk Hkne Hnbf Hlt Htok.
  rewrite (auth_throw env now req st _
             (JS.Error "NotBeforeError" "jwt not active") Htok).
  - reflexivity.
  - apply Hsound.
  - rewrite Hk, (jwt_verify_own _ _ _ Hsound Hkne), Hnbf.
    destruct (Z.ltb_spec (now / 1000) n) as [_|?]; [reflexivity | lia].
Qed.

Lemma auth_not_before_is_500_sample :
  @auth Sample.jose Sample.saving Sample.env 0
    (Sample.bare
       (Some (@compact Sample.jose
                {| claims := {| claim_userId := "u1"; claim_organizationId := "o1";
                                iat := 0; nbf := Some 60; exp := None |};
                   signature := "s3cret" |})) None) Sample.store
  = respond 500 [ ("success", JBool false); ("message", JString "Authentication failed.") ]
      (Sample.bare
         (Some (@compact Sample.jose
                  {| claims := {| claim_userId := "u1"; claim_organizationId := "o1";
                                  iat := 0; nbf := Some 60; exp := None |};
                     signature := "s3cret" |})) None) Sample.store.
Proof.
  apply (@auth_not_before_is_500 Sample.jose Sample.saving Sample.env 0 "s3cret"
           {| claim_userId := "u1"; claim_organizationId := "o1";
              iat := 0; nbf := Some 60; exp := None |} 60).
  - exact sample_codec_sound.
  - reflexivity.
  - discriminate.
  - reflexivity.
  - reflexivity.
  - reflexivity.
Defined.

(** ** Guarded routes *)

Lemma chain_after_auth `{Jose} `{UserModel} env now (m : Middleware) req st :
  chain [auth env now; m] req st =
    match outcome (auth env now req st) with
    | Responded _ => auth env now req st
    | NextCalled =>
        let r := m (request_after (auth env now req st))
                   (store_after (auth env now req st)) in
        match outcome r with
        | Responded _ => r
        | NextCalled => next (request_after r) (store_after r)
        end
    end.
Proof. simpl. destruct (outcome (auth env now req st)); reflexivity. Qed.

Lemma includes_false xs x : JS.includes xs x = false <-> x ∉ xs.
Proof.
  rewrite <- includes_spec. destruct (JS.includes xs x); split; congruence.
Qed.

(** X5. Behind [auth], the role authorizer reaches the handler exactly for an
    authenticated account whose stored role is one of the allowed ones, and
    its own 401 "Authentication required" can no longer occur: every 401 of
    the route is one of [auth]. *)
Theorem authorize_behind_auth `{Jose} `{UserModel}
    (env : Env) (now : Z) (roles : list string) (req : Request) (st : Store) :
  (outcome (chain [auth env now; authorize roles] req st) = NextCalled <->
     exists user organization,
       authenticates env now req st user organization /\ user_role user ∈ roles)
  /\ (forall res,
        outcome (chain [auth env now; authorize roles] req st) = Responded res ->
        status res = 401 ->
        outcome (auth env now req st) = Responded res)
  /\ (forall user organization,
        authenticates env now req st user organization -> user_role user ∉ roles ->
        outcome (chain [auth env now; authorize roles] req st) =
          Responded {| status := 403;
                       payload := [ ("success", JBool false);
                                    ("message",
                                      JString "Access denied. Insufficient permissions.") ] |}).
Proof.
  rewrite chain_after_auth.
  destruct (outcome (auth env now req st)) as [res0|] eqn:Ho.
  - (* rejected by [auth] *)
    split; [|split].
    + rewrite Ho. split; [discriminate|].
      intros (u & o & Hauth & _).
      rewrite (auth_authenticated env now req st u o Hauth) in Ho. discriminate.
    + intros res Hres _. simpl in Hres. congruence.
    + intros u o Hauth _. exfalso.
      rewrite (auth_authenticated env now req st u o Hauth) in Ho. discriminate.
  - (* forwarded by [auth] *)
    destruct (auth_next_inv env now req st Ho) as (u & o & Hauth).
    pose proof (auth_authenticated env now req st u o Hauth) as Heq.
    rewrite Heq. cbn [request_after store_after next].
    unfold authorize. cbn [req_user attach role select_minus_password user_role].
    assert (Huniq : forall u' o', authenticates env now req st u' o' ->
                                  user_role u' = user_role u).
    { intros u' o' (t' & d' & Ht' & Hv' & Hu' & _).
      destruct Hauth as (t & d & Ht & Hv & Hu & _).
      assert (t' = t) by congruence. subst t'.
      assert (d' = d) by congruence. subst d'. congruence. }
    destruct (JS.includes roles (user_role u)) eqn:Hin; simpl.
    + apply includes_spec in Hin. split; [|split].
      * split; [intros _; exists u, o; auto | reflexivity].
      * discriminate.
      * intros u' o' Hauth' Hnot. rewrite (Huniq u' o' Hauth') in Hnot. contradiction.
    + apply includes_false in Hin. split; [|split].
      * split; [discriminate|].
        intros (u' & o' & Hauth' & Hin'). rewrite (Huniq u' o' Hauth') in Hin'.
        contradiction.
      * intros res [= <-]. simpl. discriminate.
      * intros _ _ _ _. reflexivity.
Qed.

Lemma authorize_behind_auth_admin :
  outcome (chain (@adminOnly Sample.jose Sample.saving Sample.env 1000)
             (Sample.bare (Some (Sample.tokenFor "u1" "o1" "s3cret" 0)) None)
             Sample.store) = NextCalled.
Proof.
  refine (proj2 (proj1 (@authorize_behind_auth Sample.jose Sample.saving Sample.env 1000
                          ["admin"]
                          (Sample.bare (Some (Sample.tokenFor "u1" "o1" "s3cret" 0)) None)
                          Sample.store)) _).
  exists Sample.alice, (Sample.acme "active" "starter" 1000 995 true). split.
  - exists (Sample.tokenFor "u1" "o1" "s3cret" 0),
      {| claim_userId := "u1"; claim_organizationId := "o1";
         iat := 0; nbf := None; exp := Some sevenDays |}.
    split; [reflexivity|]. split; [apply sample_token_verifies; reflexivity|].
    repeat split.
  - simpl. rewrite list_elem_of_In. left. reflexivity.
Defined.

(** X6. Behind [auth], the quota gate always finds its tenant: it reaches the
    handler exactly when the authenticated tenant can afford the credits,
    and never answers "Organization context required". *)
Theorem quota_behind_auth `{Jose} `{UserModel}
    (env : Env) (now : Z) (credits : Z) (req : Request) (st : Store) :
  (outcome (chain (metered env now credits) req st) = NextCalled <->
     exists user organization,
       authenticates env now req st user organization
       /\ canUseAICredits organization credits = true)
  /\ (forall res,
        outcome (chain (metered env now credits) req st) = Responded res ->
        status res = 401 ->
        outcome (auth env now req st) = Responded res)
  /\ (forall res,
        outcome (chain (metered env now credits) req st) = Responded res ->
        status res = 403 ->
        exists user organization,
          authenticates env now req st user organization
          /\ field "code" (payload res) = Some (JString "AI_CREDITS_EXHAUSTED")
          /\ field "available" (payload res) =
               Some (JNumber (aiCredits (limits organization)
                              - aiCredits (usage organization)))).
Proof.
  unfold metered. rewrite chain_after_auth.
  destruct (outcome (auth env now req st)) as [res0|] eqn:Ho.
  - split; [|split].
    + rewrite Ho. split; [discriminate|].
      intros (u & o & Hauth & _). exfalso.
      rewrite (auth_authenticated env now req st u o Hauth) in Ho. discriminate.
    + intros res Hres _. simpl in Hres. congruence.
    + intros res Hres H403. rewrite Ho in Hres. injection Hres as <-.
      destruct (auth_responded_status env now req st res0 Ho); lia.
  - destruct (auth_next_inv env now req st Ho) as (u & o & Hauth).
    pose proof (auth_authenticated env now req st u o Hauth) as Heq.
    rewrite Heq. cbn [request_after store_after next].
    unfold checkAICredits. cbn [req_organization attach].
    assert (Huniq : forall u' o', authenticates env now req st u' o' -> o' = o).
    { intros u' o' (t' & d' & Ht' & Hv' & _ & _ & Ho' & _).
      destruct Hauth as (t & d & Ht & Hv & _ & _ & Hoo & _).
      assert (t' = t) by congruence. subst t'.
      assert (d' = d) by congruence. subst d'. congruence. }
    destruct (canUseAICredits o credits) eqn:Hcan; simpl.
    + split; [|split].
      * split; [intros _; exists u, o; auto | reflexivity].
      * discriminate.
      * discriminate.
    + split; [|split].
      * split; [discriminate|].
        intros (u' & o' & Hauth' & Hcan'). rewrite (Huniq u' o' Hauth') in Hcan'.
        congruence.
      * intros res [= <-]. simpl. discriminate.
      * intros res [= <-] _. exists u, o. split; [exact Hauth|]. split; reflexivity.
Qed.

(** ** More on the subscription gate *)

(** X7. A gate that asks for the lowest tier only checks the status: every
    tenant with an active subscription passes, whatever its plan says. *)
Theorem starter_gate_checks_status_only
    (req : Request) (st : Store) (organization : Organization) :
  req_organization req = Some organization ->
  sub_status (subscription organization) = "active" ->
  checkSubscription "starter" req st = next req st.
Proof.
  intros Horg Hst.
  assert (Hord : ordinary "starter") by (vm_compute; reflexivity).
  unfold checkSubscription. rewrite Horg, Hst. simpl.
  destruct (JS.lt _ _) eqn:E; [|reflexivity]. exfalso.
  apply (below_dec_spec _ _ Hord) in E. destruct E as (a & b & Ha & Hb & Hlt).
  apply rank_Some in Ha. destruct rank_tiers as (H0 & _). rewrite H0 in Hb.
  injection Hb as <-. intuition lia.
Qed.

Lemma starter_gate_checks_status_only_sample :
  checkSubscription "starter"
    (Sample.withOrganization (Sample.acme "active" "legacy" 10 0 true)) Sample.store
  = next (Sample.withOrganization (Sample.acme "active" "legacy" 10 0 true)) Sample.store.
Proof.
  apply (starter_gate_checks_status_only _ Sample.store
           (Sample.acme "active" "legacy" 10 0 true)); reflexivity.
Defined.

(** X8. The gates are monotone in the required tier: a request that passes the
    gate of a tier passes the gate of every lower tier. *)
Theorem lower_gate_passes
    (lower higher : string) (req : Request) (st : Store) :
  below lower higher ->
  checkSubscription higher req st = next req st ->
  checkSubscription lower req st = next req st.
Proof.
  intros (a & b & Ha & Hb & Hlt) Hpass.
  pose proof (tiers_ordinary _ _ Ha) as Hlo.
  pose proof (tiers_ordinary _ _ Hb) as Hhi.
  unfold checkSubscription in *.
  destruct (req_organization req) as [o|]; [|discriminate].
  destruct (String.eqb_spec (sub_status (subscription o)) "active") as [Hact|];
    [|discriminate]. simpl in *.
  destruct (JS.lt (JS.get planHierarchy (plan (subscription o)))
                  (JS.get planHierarchy higher)) eqn:Ehi; [discriminate|].
  destruct (JS.lt (JS.get planHierarchy (plan (subscription o)))
                  (JS.get planHierarchy lower)) eqn:Elo; [|reflexivity].
  exfalso. apply (below_dec_spec _ _ Hlo) in Elo.
  destruct Elo as (c & a' & Hc & Ha' & Hca).
  assert (Hbelow : below (plan (subscription o)) higher).
  { exists c, b. repeat split; try assumption.
    unfold rank in *. assert (a' = a) by congruence. lia. }
  apply (below_dec_spec _ _ Hhi) in Hbelow. congruence.
Qed.

Lemma lower_gate_passes_sample :
  checkSubscription "business"
    (Sample.withOrganization (Sample.acme "active" "enterprise" 10 0 true)) Sample.store
  = next (Sample.withOrganization (Sample.acme "active" "enterprise" 10 0 true))
      Sample.store.
Proof.
  apply (lower_gate_passes "business" "enterprise").
  - apply below_tiers.
  - reflexivity.
Defined.

(** ** Refreshing a session *)

Lemma verified_secret_set `{Jose} token secret now decoded :
  jwt_verify token secret now = JS.Return decoded -> JS.truthy secret = true.
Proof.
  unfold jwt_verify. destruct (String.eqb token ""); [discriminate|].
  destruct (parse token); [|discriminate].
  destruct (JS.truthy secret); [reflexivity | discriminate].
Qed.

(** X9. For an authenticated request the refresh route never fails: it answers
    200 and sets the session cookie to a fresh token, which verifies to the
    ids of the account and the tenant for seven days from the moment of
    signing; the cookie lives exactly as long as the token. *)
Theorem refresh_renews `{Jose} `{UserModel}
    (env : Env) (nodeEnv : option string) (now later : Z)
    (req : Request) (st : Store) (user : User) (organization : Organization) :
  codec_sound ->
  authenticates env now req st user organization ->
  exists token,
    fst (refresh env nodeEnv now later req st) =
      {| reply_status := 200;
         reply_cookies := [ SetCookie "token" token (sessionCookie nodeEnv) ];
         reply_body := [ ("success", JBool true);
                         ("message", JString "Token refreshed successfully") ] |}
    /\ (forall t, t / 1000 < later / 1000 + sevenDays ->
          exists decoded,
            jwt_verify token (JWT_SECRET env) t = JS.Return decoded
            /\ claim_userId decoded = user_id user
            /\ claim_organizationId decoded = org_id organization)
    /\ (forall t, later + maxAge (sessionCookie nodeEnv) < t ->
          jwt_verify token (JWT_SECRET env) t =
            JS.Throw (JS.Error "TokenExpiredError" "jwt expired")).
Proof.
  intros Hsound Hauth.
  pose proof (auth_authenticated env now req st user organization Hauth) as Hn.
  assert (Hsecret : JS.truthy (JWT_SECRET env) = true).
  { destruct Hauth as (token & decoded & _ & Hv & _). eapply verified_secret_set, Hv. }
  destruct (truthy_default _ Hsecret) as [Hk Hkne].
  set (key := default "" (JWT_SECRET env)) in *.
  unfold refresh. rewrite Hn. cbn [outcome next request_after store_after fst].
  unfold refreshHandler. cbn [req_user attach userId organizationId].
  unfold generateToken, jwt_sign. rewrite Hsecret. cbn [negb]. fold key.
  eexists. split; [reflexivity|]. rewrite Hk. split.
  - intros t Ht. eexists. rewrite (jwt_verify_own _ _ _ Hsound Hkne). simpl.
    destruct (Z.leb_spec (later / 1000 + sevenDays) (t / 1000)) as [?|_]; [lia|].
    repeat split.
  - intros t Ht. rewrite (jwt_verify_own _ _ _ Hsound Hkne). simpl.
    assert (later / 1000 + sevenDays <= t / 1000)
      by (apply seconds_after; exact Ht).
    destruct (Z.leb_spec (later / 1000 + sevenDays) (t / 1000)) as [_|?];
      [reflexivity | lia].
Qed.

Lemma sample_authenticates :
  @authenticates Sample.jose Sample.env 1000
    (Sample.bare (Some (Sample.tokenFor "u1" "o1" "s3cret" 0)) None) Sample.store
    Sample.alice (Sample.acme "active" "starter" 1000 995 true).
Proof.
  exists (Sample.tokenFor "u1" "o1" "s3cret" 0),
    {| claim_userId := "u1"; claim_organizationId := "o1";
       iat := 0; nbf := None; exp := Some sevenDays |}.
  split; [reflexivity|]. split; [apply sample_token_verifies; reflexivity|].
  repeat split.
Qed.

Lemma refresh_renews_sample :
  exists token,
    fst (@refresh Sample.jose Sample.saving Sample.env (Some "production") 1000 2000
           (Sample.bare (Some (Sample.tokenFor "u1" "o1" "s3cret" 0)) None) Sample.store) =
      {| reply_status := 200;
         reply_cookies := [ SetCookie "token" token (sessionCookie (Some "production")) ];
         reply_body := [ ("success", JBool true);
                         ("message", JString "Token refreshed successfully") ] |}.
Proof.
  destruct (@refresh_renews Sample.jose Sample.saving Sample.env (Some "production")
              1000 2000
              (Sample.bare (Some (Sample.tokenFor "u1" "o1" "s3cret" 0)) None)
              Sample.store Sample.alice (Sample.acme "active" "starter" 1000 995 true)
              sample_codec_sound sample_authenticates) as (token & Hreply & _).
  exists token. exact Hreply.
Defined.

(** X10. A session that has run out cannot be extended: with a token issued more
    than seven days ago the refresh route answers 401 "Token expired.", sets
    no cookie and leaves the store alone. *)
Theorem refresh_expired `{Jose} `{UserModel}
    (env : Env) (nodeEnv : option string) (issuedAt now later : Z)
    (a t : string) (token : string) (req : Request) (st : Store) :
  codec_sound ->
  generateToken env issuedAt a t = JS.Return token ->
  extractToken req = Some token ->
  issuedAt + sevenDays * 1000 < now ->
  refresh env nodeEnv now later req st =
    ({| reply_status := 401;
        reply_cookies := [];
        reply_body := [ ("success", JBool false); ("message", JString "Token expired.") ] |},
     st).
Proof.
  intros Hsound Hgen Htok Hlate.
  unfold generateToken, jwt_sign in Hgen.
  destruct (JS.truthy (JWT_SECRET env)) eqn:Hsecret; [|discriminate].
  destruct (truthy_default _ Hsecret) as [Hk Hkne].
  cbn [negb] in Hgen. injection Hgen as <-.
  apply seconds_after in Hlate.
  unfold refresh.
  erewrite (auth_throw env now req st _
              (JS.Error "TokenExpiredError" "jwt expired") Htok).
  - reflexivity.
  - apply Hsound.
  - rewrite Hk at 2. rewrite (jwt_verify_own _ _ _ Hsound Hkne). simpl.
    destruct (Z.leb_spec (issuedAt / 1000 + sevenDays) (now / 1000)) as [_|?];
      [reflexivity | lia].
Qed.

Lemma refresh_expired_sample :
  @refresh Sample.jose Sample.saving Sample.env None 700000000 700000001
    (Sample.bare None (Some ("Bearer " +:+ Sample.tokenFor "u1" "o1" "s3cret" 0)))
    Sample.store
  = ({| reply_status := 401;
        reply_cookies := [];
        reply_body := [ ("success", JBool false); ("message", JString "Token expired.") ] |},
     Sample.store).
Proof.
  apply (@refresh_expired Sample.jose Sample.saving Sample.env None 0 700000000 700000001
           "u1" "o1" (Sample.tokenFor "u1" "o1" "s3cret" 0)).
  - exact sample_codec_sound.
  - reflexivity.
  - apply extractToken_bearer; reflexivity.
  - reflexivity.
Defined.

(** * Helpers *)

Example baseSlug_acme : baseSlug "Acme  Corp. & Sons" = "acme-corp-sons".
Proof. vm_compute. reflexivity. Qed.

Example baseSlug_edges : baseSlug " Acme - Corp " = "-acme-corp-".
Proof. vm_compute. reflexivity. Qed.

Example generateSlug_third :
  generateSlug 5 {[ "acme"; "acme-1" ]} "ACME" = Some "acme-2".
Proof. vm_compute. reflexivity. Qed.

Example sanitizeInput_script :
  sanitizeInput "  <script>alert(1)</script> " = "scriptalert(1)/script".
Proof. vm_compute. reflexivity. Qed.

(** ** Character classes and the text operations *)

Lemma slugChar_not_space c : isSlugChar c = true -> Text.isSpace c = false.
Proof. destruct c as [[] [] [] [] [] [] [] []]; vm_compute; congruence. Qed.

Lemma kept_not_space c :
  Text.isLower c || Text.isDigit c || Text.isSpace c || Text.isDash c = true ->
  Text.isSpace c = false -> isSlugChar c = true.
Proof.
  unfold isSlugChar. intros Hk Hs. rewrite Hs, orb_false_r in Hk. exact Hk.
Qed.

Lemma every_filter keep s : Text.every keep (Text.filter keep s) = true.
Proof.
  induction s as [|c r IH]; simpl; [reflexivity|].
  destruct (keep c) eqn:E; simpl; [rewrite E|]; exact IH.
Qed.

Lemma every_weaken (p q : ascii -> bool) s :
  (forall c, p c = true -> q c = true) ->
  Text.every p s = true -> Text.every q s = true.
Proof.
  intros Hpq. induction s as [|c r IH]; simpl; [reflexivity|].
  intros [Hc Hr]%andb_true_iff. rewrite (Hpq c Hc), (IH Hr). reflexivity.
Qed.

Lemma filter_id keep s : Text.every keep s = true -> Text.filter keep s = s.
Proof.
  induction s as [|c r IH]; simpl; [reflexivity|].
  intros [Hc Hr]%andb_true_iff. rewrite Hc, (IH Hr). reflexivity.
Qed.

Lemma every_dashRuns (class p q : ascii -> bool) b s :
  (forall c, p c = true -> class c = false -> q c = true) ->
  q "-"%char = true ->
  Text.every p s = true -> Text.every q (Text.dashRuns class b s) = true.
Proof.
  intros Hpq Hdash. revert b. induction s as [|c r IH]; intros b; simpl;
    [reflexivity|].
  intros [Hc Hr]%andb_true_iff.
  destruct (class c) eqn:E.
  - destruct b; simpl; [|rewrite Hdash]; apply IH, Hr.
  - simpl. rewrite (Hpq c Hc E). apply IH, Hr.
Qed.

Lemma singleDashes_cons c s :
  Text.singleDashes (String c s) =
    negb (Text.isDash c && startsWithDash s) && Text.singleDashes s.
Proof. destruct s as [|c2 r]; simpl; [rewrite andb_false_r|]; reflexivity. Qed.

Lemma dashRuns_single b s :
  Text.singleDashes (Text.dashRuns Text.isDash b s) = true
  /\ (b = true -> startsWithDash (Text.dashRuns Text.isDash b s) = false).
Proof.
  revert b. induction s as [|c r IH]; intros b; [split; reflexivity|].
  cbn [Text.dashRuns]. destruct (Text.isDash c) eqn:E.
  - destruct b.
    + apply IH.
    + destruct (IH true) as [Hs Hh]. split; [|discriminate].
      rewrite singleDashes_cons, Hs, (Hh eq_refl), andb_false_r. reflexivity.
  - destruct (IH false) as [Hs _]. split.
    + rewrite singleDashes_cons, E, Hs. reflexivity.
    + intros _. simpl. exact E.
Qed.

Lemma trimStart_id s :
  Text.every (fun c => negb (Text.isSpace c)) s = true -> Text.trimStart s = s.
Proof.
  destruct s as [|c r]; simpl; [reflexivity|].
  intros [Hc _]%andb_true_iff. apply negb_true_iff in Hc. rewrite Hc. reflexivity.
Qed.

Lemma trimEnd_id s :
  Text.every (fun c => negb (Text.isSpace c)) s = true -> Text.trimEnd s = s.
Proof.
  induction s as [|c r IH]; simpl; [reflexivity|].
  intros [Hc Hr]%andb_true_iff. apply negb_true_iff in Hc.
  rewrite (IH Hr), Hc. destruct r; reflexivity.
Qed.

Lemma trim_id s :
  Text.every (fun c => negb (Text.isSpace c)) s = true -> Text.trim s = s.
Proof.
  intros H. unfold Text.trim. rewrite (trimStart_id s H). apply trimEnd_id, H.
Qed.

(** ** Slugs *)

(** The text [baseSlug] hands to [trim], which then has nothing to strip. *)
Lemma baseSlug_untrimmed name :
  let core :=
    Text.dashRuns Text.isDash false
      (Text.dashRuns Text.isSpace false
         (Text.filter
            (fun c => Text.isLower c || Text.isDigit c || Text.isSpace c || Text.isDash c)
            (Text.map Text.lower name))) in
  baseSlug name = core /\ Text.every isSlugChar core = true.
Proof.
  intros core.
  assert (Hc : Text.every isSlugChar core = true).
  { unfold core.
    apply (every_dashRuns Text.isDash isSlugChar isSlugChar);
      [auto | reflexivity |].
    apply (every_dashRuns Text.isSpace
             (fun c => Text.isLower c || Text.isDigit c || Text.isSpace c || Text.isDash c)
             isSlugChar); [apply kept_not_space | reflexivity |].
    apply every_filter. }
  split; [|exact Hc]. unfold baseSlug. fold core. apply trim_id.
  apply (every_weaken isSlugChar); [|exact Hc].
  intros c H. rewrite (slugChar_not_space c H). reflexivity.
Qed.

(** X11. Whatever the name, its base slug consists of lower-case letters, digits
    and dashes only, and never has two dashes in a row. *)
Theorem baseSlug_shape (name : string) :
  Text.every isSlugChar (baseSlug name) = true
  /\ Text.singleDashes (baseSlug name) = true.
Proof.
  destruct (baseSlug_untrimmed name) as [-> Hchars]. split; [exact Hchars|].
  apply dashRuns_single.
Qed.

(** X12. [trim('-')] strips white space, not dashes: a name that begins with
    white space or a dash gets a slug that begins with a dash. *)
Theorem baseSlug_keeps_leading_dash (c : ascii) (rest : string) :
  Text.isSpace c || Text.isDash c = true ->
  exists tail, baseSlug (String c rest) = String "-" tail.
Proof.
  intros Hc. destruct (baseSlug_untrimmed (String c rest)) as [-> _].
  assert (Hlow : Text.lower c = c).
  { revert Hc. destruct c as [[] [] [] [] [] [] [] []]; vm_compute; congruence. }
  cbn [Text.map Text.filter]. rewrite Hlow.
  assert (Hk : Text.isLower c || Text.isDigit c || Text.isSpace c || Text.isDash c = true).
  { apply orb_true_iff in Hc. destruct Hc as [H|H]; rewrite H;
      rewrite ?orb_true_r; reflexivity. }
  rewrite Hk. cbn [Text.dashRuns].
  destruct (Text.isSpace c) eqn:Es.
  - cbn [Text.dashRuns]. change (Text.isDash "-") with true. cbn iota.
    eexists. reflexivity.
  - simpl in Hc. cbn [Text.dashRuns]. rewrite Hc.
    eexists. reflexivity.
Qed.

Lemma baseSlug_keeps_leading_dash_sample :
  exists tail, baseSlug " Acme" = String "-" tail.
Proof. apply (baseSlug_keeps_leading_dash " " "Acme"). reflexivity. Defined.

Lemma numbered_inj base i j : numbered base i = numbered base j -> i = j.
Proof.
  unfold numbered. intros H. apply (inj (String.append base)) in H.
  simpl in H. injection H as H. exact (inj pretty _ _ H).
Qed.

Lemma numbered_longer base j : numbered base j <> base.
Proof.
  unfold numbered. induction base as [|c r IH]; simpl; [discriminate|].
  intros [= H]. exact (IH H).
Qed.

Lemma slugLoop_Some taken base slug counter fuel s :
  slugLoop taken base slug counter fuel = Some s ->
  (s ∉ taken)
  /\ ((s = slug)
      \/ (slug ∈ taken
          /\ exists k, (counter <= k)%nat /\ s = numbered base k
               /\ forall j, (counter <= j < k)%nat -> numbered base j ∈ taken)).
Proof.
  revert slug counter. induction fuel as [|fuel IH]; intros slug counter; simpl;
    [discriminate|].
  case_bool_decide as Hin.
  - intros Hs. destruct (IH _ _ Hs) as [Hfree Hwhich]. split; [exact Hfree|].
    right. split; [exact Hin|].
    destruct Hwhich as [->|(Hprev & k & Hk & -> & Hall)].
    + exists counter. split; [lia|]. split; [reflexivity|]. intros j Hj. lia.
    + exists k. split; [lia|]. split; [reflexivity|].
      intros j Hj. destruct (decide (j = counter)) as [->|Hne]; [exact Hprev|].
      apply Hall. lia.
  - intros [= <-]. split; [exact Hin | left; reflexivity].
Qed.

Lemma slugLoop_None taken base slug counter fuel :
  slugLoop taken base slug counter fuel = None ->
  fuel = 0%nat
  \/ (slug ∈ taken
      /\ forall j, (counter <= j < counter + fuel - 1)%nat -> numbered base j ∈ taken).
Proof.
  revert slug counter. induction fuel as [|fuel IH]; intros slug counter; simpl;
    [left; reflexivity|].
  case_bool_decide as Hin; [|discriminate].
  intros Hn. right. split; [exact Hin|]. intros j Hj.
  destruct (IH _ _ Hn) as [->|[Hprev Hall]]; [lia|].
  destruct (decide (j = counter)) as [->|Hne]; [exact Hprev|]. apply Hall. lia.
Qed.

(** The loop cannot use up more fuel than there are slugs in use. *)
Lemma slugLoop_enough taken base fuel :
  (size taken < fuel)%nat -> slugLoop taken base base 1 fuel <> None.
Proof.
  intros Hfuel Hn. apply slugLoop_None in Hn. destruct Hn as [->|[Hbase Hall]]; [lia|].
  set (l := base :: (numbered base <$> seq 1 (fuel - 1))).
  assert (Hnd : NoDup l).
  { unfold l. apply NoDup_cons. split.
    - intros (j & Hj & _)%list_elem_of_fmap. exact (numbered_longer base j (eq_sym Hj)).
    - apply NoDup_fmap_2_strong; [|apply NoDup_seq].
      intros i j _ _ Hij. exact (numbered_inj base i j Hij). }
  assert (Hsub : list_to_set l ⊆ taken).
  { intros x Hx. apply elem_of_list_to_set in Hx. unfold l in Hx.
    apply elem_of_cons in Hx. destruct Hx as [->|Hx]; [exact Hbase|].
    apply list_elem_of_fmap in Hx. destruct Hx as (j & -> & Hj).
    apply elem_of_seq in Hj. apply Hall. lia. }
  apply subseteq_size in Hsub. rewrite (size_list_to_set l Hnd) in Hsub.
  unfold l in Hsub. simpl in Hsub. rewrite length_fmap, length_seq in Hsub. lia.
Qed.

(** X13. However many slugs are in use, [generateSlug] comes back with one that
    is not: the base slug when it is free, and otherwise the base slug with
    the first counter, from 1 upwards, whose slug is free.  Fuel above the
    number of slugs in use is always enough. *)
Theorem generateSlug_fresh (fuel : nat) (taken : gset string) (name : string) :
  (size taken < fuel)%nat ->
  exists slug,
    generateSlug fuel taken name = Some slug
    /\ (slug ∉ taken)
    /\ (baseSlug name ∉ taken -> slug = baseSlug name)
    /\ (baseSlug name ∈ taken ->
        exists k, (1 <= k)%nat /\ slug = numbered (baseSlug name) k
          /\ forall j, (1 <= j < k)%nat -> numbered (baseSlug name) j ∈ taken).
Proof.
  intros Hfuel. unfold generateSlug.
  destruct (slugLoop taken (baseSlug name) (baseSlug name) 1 fuel) as [slug|] eqn:E.
  - exists slug. split; [reflexivity|].
    destruct (slugLoop_Some _ _ _ _ _ _ E) as [Hfree Hwhich].
    split; [exact Hfree|]. split.
    + intros Hbase. destruct Hwhich as [->|[Hin _]]; [reflexivity | contradiction].
    + intros Hbase. destruct Hwhich as [->|[_ Hk]]; [contradiction | exact Hk].
  - destruct (slugLoop_enough taken (baseSlug name) fuel Hfuel E).
Qed.

Lemma generateSlug_fresh_sample :
  exists slug,
    generateSlug 3 {[ "acme"; "acme-1" ]} "ACME" = Some slug
    /\ slug ∉ ({[ "acme"; "acme-1" ]} : gset string).
Proof.
  destruct (generateSlug_fresh 3 {[ "acme"; "acme-1" ]} "ACME") as (slug & H1 & H2 & _).
  - vm_compute. lia.
  - exists slug. split; assumption.
Defined.

(** ** Sanitising input *)

Lemma substring_prefix_length n s : (String.length (String.substring 0 n s) <= n)%nat.
Proof.
  revert s. induction n as [|n IH]; intros [|c r]; simpl; try lia.
  specialize (IH r). lia.
Qed.

Lemma substring_prefix_every p n s :
  Text.every p s = true -> Text.every p (String.substring 0 n s) = true.
Proof.
  revert s. induction n as [|n IH]; intros [|c r]; simpl; try reflexivity.
  intros [Hc Hr]%andb_true_iff. rewrite Hc. apply IH, Hr.
Qed.

Lemma substring_prefix_id n s :
  (String.length s <= n)%nat -> String.substring 0 n s = s.
Proof.
  revert s. induction n as [|n IH]; intros [|c r]; simpl; try reflexivity; try lia.
  intros Hlen. rewrite IH by lia. reflexivity.
Qed.

(** X14. What [sanitizeInput] returns never holds an angle bracket and is never
    longer than 1000 characters. *)
Theorem sanitizeInput_safe (input : string) :
  Text.every (fun c => negb (Text.isAngle c)) (sanitizeInput input) = true
  /\ (String.length (sanitizeInput input) <= 1000)%nat.
Proof.
  unfold sanitizeInput. split.
  - apply substring_prefix_every, every_filter.
  - apply substring_prefix_length.
Qed.

(** X15. Text that is already clean comes back unchanged: no angle brackets, no
    white space at either end, at most 1000 characters. *)
Theorem sanitizeInput_clean (input : string) :
  Text.trim input = input ->
  Text.every (fun c => negb (Text.isAngle c)) input = true ->
  (String.length input <= 1000)%nat ->
  sanitizeInput input = input.
Proof.
  intros Htrim Hclean Hlen. unfold sanitizeInput.
  rewrite Htrim, (filter_id _ _ Hclean). apply substring_prefix_id, Hlen.
Qed.

Lemma sanitizeInput_clean_sample : sanitizeInput "Acme Corp" = "Acme Corp".
Proof. apply sanitizeInput_clean; [reflexivity | reflexivity | vm_compute; lia]. Defined.

(** The no-break space is white space to [trim]. *)
Example sanitizeInput_no_break_space :
  sanitizeInput (String "160" "abc") = "abc".
Proof. vm_compute. reflexivity. Qed.

(** The order of the steps shows: brackets are removed after trimming, so
    white space they were hiding stays at the edge. *)
Example sanitizeInput_not_trimmed : sanitizeInput "< a" = " a".
Proof. vm_compute. reflexivity. Qed.

(** ** The credit table *)

Lemma costs_lookup a b c k n :
  costs a b c !! k = Some n ->
  (k = "simple" /\ n = a) \/ (k = "medium" /\ n = b) \/ (k = "complex" /\ n = c).
Proof.
  unfold costs. rewrite !lookup_insert.
  repeat case_decide; subst; rewrite ?lookup_empty; intros [=]; subst; auto.
Qed.

Lemma baseCosts_lookup op table :
  baseCosts !! op = Some table ->
  exists a b c, table = costs a b c /\ 1 <= a <= b /\ b <= c <= 20.
Proof.
  unfold baseCosts. rewrite !lookup_insert.
  repeat case_decide; subst; rewrite ?lookup_empty; intros [=]; subst;
    eexists _, _, _; (split; [reflexivity | lia]).
Qed.

(** X16. For names that are not members inherited from [Object.prototype], the
    cost is a number of credits between 1 and 20; it is 1 for an operation
    or a complexity the table does not have; and within an operation the
    cost never falls from simple to medium to complex. *)
Theorem calculateAICredits_bounds (operation : string) (complexity : option string) :
  ordinary operation ->
  ordinary (default "medium" complexity) ->
  exists n,
    calculateAICredits operation complexity = Credits n
    /\ 1 <= n <= 20
    /\ (baseCosts !! operation = None -> n = 1)
    /\ (default "medium" complexity <> "simple" ->
        default "medium" complexity <> "medium" ->
        default "medium" complexity <> "complex" -> n = 1)
    /\ (forall s m c,
          calculateAICredits operation (Some "simple") = Credits s ->
          calculateAICredits operation None = Credits m ->
          calculateAICredits operation (Some "complex") = Credits c ->
          s <= m <= c).
Proof.
  unfold ordinary. intros Hop Hcx.
  assert (Hmono : forall s m c,
             calculateAICredits operation (Some "simple") = Credits s ->
             calculateAICredits operation None = Credits m ->
             calculateAICredits operation (Some "complex") = Credits c ->
             s <= m <= c).
  { unfold calculateAICredits. rewrite Hop.
    destruct (baseCosts !! operation) as [table|] eqn:Et.
    - destruct (baseCosts_lookup _ _ Et) as (a & b & c0 & -> & Hab & Hbc).
      intros s m c. unfold costs. cbn [default from_option id].
      rewrite !lookup_insert. repeat case_decide; try congruence.
      destruct (Z.eqb_spec a 0), (Z.eqb_spec b 0), (Z.eqb_spec c0 0); try lia.
      intros [= <-] [= <-] [= <-]. lia.
    - intros s m c [= <-] [= <-] [= <-]. lia. }
  unfold calculateAICredits at 1. rewrite Hop, Hcx.
  destruct (baseCosts !! operation) as [table|] eqn:Et.
  - destruct (baseCosts_lookup _ _ Et) as (a & b & c & -> & Hab & Hbc).
    destruct (costs a b c !! default "medium" complexity) as [n|] eqn:En.
    + apply costs_lookup in En.
      assert (Hn : 1 <= n <= 20) by (destruct En as [[_ ->]|[[_ ->]|[_ ->]]]; lia).
      destruct (Z.eqb_spec n 0); [lia|].
      exists n. split; [reflexivity|]. split; [exact Hn|].
      split; [discriminate|]. split; [|exact Hmono].
      intros H1 H2 H3. destruct En as [[? _]|[[? _]|[? _]]]; contradiction.
    + exists 1. split; [reflexivity|]. split; [lia|].
      split; [discriminate|]. split; [reflexivity | exact Hmono].
  - exists 1. split; [reflexivity|]. split; [lia|].
    split; [reflexivity|]. split; [reflexivity | exact Hmono].
Qed.

Lemma calculateAICredits_bounds_chat :
  exists n, calculateAICredits "chat-message" None = Credits n /\ 1 <= n <= 20.
Proof.
  destruct (calculateAICredits_bounds "chat-message" None) as (n & Hn & Hb & _).
  - vm_compute. reflexivity.
  - vm_compute. reflexivity.
  - exists n. split; assumption.
Defined.

(** ** Pagination *)

Lemma ceilDiv_spec total limit :
  0 < limit ->
  exists n, ceilDiv total limit = Finite n /\ (n - 1) * limit < total <= n * limit.
Proof.
  intros Hl. unfold ceilDiv. destruct (Z.eqb_spec limit 0); [lia|].
  eexists. split; [reflexivity|].
  pose proof (Z.div_mod (- total) limit ltac:(lia)) as Hdm.
  pose proof (Z.mod_pos_bound (- total) limit Hl) as Hr.
  nia.
Qed.



(** X18. For safe integers: on a page that exists, the neighbours offered exist
    too: the next page is offered on every page but the last and the
    previous one on every page but the first. *)
Theorem pagination_neighbours (page limit total n : Z) :
  safeInteger limit -> safeInteger total ->
  0 < limit -> 0 <= total ->
  totalPages (getPaginationMeta page limit total) = Finite n ->
  1 <= page <= n ->
  let meta := getPaginationMeta page limit total in
  safeInteger page
  /\ (nextPage meta = (if page =? n then None else Some (page + 1)))
  /\ (prevPage meta = (if page =? 1 then None else Some (page - 1)))
  /\ (forall q, nextPage meta = Some q \/ prevPage meta = Some q -> 1 <= q <= n)
  /\ hasNextPage meta = bool_decide (is_Some (nextPage meta))
  /\ hasPrevPage meta = bool_decide (is_Some (prevPage meta)).
Proof.
  intros Hsl Hst Hl Ht Hn Hpage meta.
  assert (Hsafe : safeInteger page).
  { destruct (ceilDiv_spec total limit Hl) as (n' & Hn' & Hlo & _).
    unfold getPaginationMeta in Hn. cbn [totalPages] in Hn.
    assert (n' = n) by congruence. subst n'.
    unfold safeInteger in *. split; [lia | nia]. }
  split; [exact Hsafe|].
  unfold meta, getPaginationMeta in *.
  cbn [nextPage prevPage hasNextPage hasPrevPage totalPages] in *.
  rewrite Hn. cbn [ltNumber].
  destruct (Z.ltb_spec page n), (Z.eqb_spec page n), (Z.ltb_spec 1 page),
    (Z.eqb_spec page 1); try lia;
    (split; [reflexivity|]; split; [reflexivity|];
     split; [intros q [Hq|Hq]; inversion Hq; lia | split; reflexivity]).
Qed.

Lemma pagination_neighbours_sample :
  nextPage (getPaginationMeta 2 20 41) = Some 3
  /\ prevPage (getPaginationMeta 2 20 41) = Some 1.
Proof.
  destruct (pagination_neighbours 2 20 41 3) as (_ & Hn & Hp & _);
    try reflexivity; unfold safeInteger; try lia.
  split; [exact Hn | exact Hp].
Defined.

(** X19. A page size of zero with items to show makes the page count infinite:
    every page, its number a safe integer, then claims to have a next
    one. *)
Theorem pagination_zero_limit (page total : Z) :
  safeInteger page ->
  0 < total ->
  totalPages (getPaginationMeta page 0 total) = PlusInfinity
  /\ hasNextPage (getPaginationMeta page 0 total) = true
  /\ nextPage (getPaginationMeta page 0 total) = Some (page + 1).
Proof.
  intros _ Ht. unfold getPaginationMeta, ceilDiv. simpl.
  destruct (Z.ltb_spec 0 total); [repeat split | lia].
Qed.

Lemma pagination_zero_limit_sample :
  totalPages (getPaginationMeta 7 0 5) = PlusInfinity
  /\ hasNextPage (getPaginationMeta 7 0 5) = true
  /\ nextPage (getPaginationMeta 7 0 5) = Some 8.
Proof. apply (pagination_zero_limit 7 5); unfold safeInteger; lia. Defined.

(** ** Retrying with backoff *)

Lemma backoff_total baseDelay k :
  totalDelay (backoff baseDelay k) = baseDelay * (2 ^ Z.of_nat k - 1).
Proof.
  unfold backoff, totalDelay. induction k as [|k IH]; [simpl; lia|].
  rewrite seq_S, fmap_app, foldr_app. simpl.
  assert (Hshift : forall l z, foldr Z.add z l = foldr Z.add 0 l + z).
  { induction l as [|x l IHl]; intros z; simpl; [lia | rewrite IHl; lia]. }
  rewrite Hshift, IH, Nat2Z.inj_succ, Z.pow_succ_r by lia. lia.
Qed.

Lemma retryFrom_succeeds {A} (fn : nat -> JS.completion A) maxRetries baseDelay a k :
  forall i lastError remaining,
    (k < remaining)%nat ->
    Z.of_nat (i + k) <= maxRetries - 1 ->
    (forall j, (i <= j < i + k)%nat -> exists e, fn j = JS.Throw e) ->
    fn (i + k)%nat = JS.Return a ->
    retryFrom fn maxRetries baseDelay i lastError remaining =
      {| settles := Resolves a; calls := S (i + k);
         sleeps := (fun j => baseDelay * 2 ^ Z.of_nat j) <$> seq i k |}.
Proof.
  induction k as [|k IH]; intros i lastError remaining Hrem Hmax Hfail Hok;
    (destruct remaining as [|remaining]; [lia|]); simpl.
  - rewrite Nat.add_0_r in *. rewrite Hok. reflexivity.
  - destruct (Hfail i ltac:(lia)) as [e He]. rewrite He.
    destruct (Z.eqb_spec (Z.of_nat i) (maxRetries - 1)); [lia|].
    rewrite (IH (S i) (Some e) remaining); try lia.
    + simpl. repeat f_equal. lia.
    + intros j Hj. apply Hfail. lia.
    + replace (S i + k)%nat with (i + S k)%nat by lia. exact Hok.
Qed.

Lemma retryFrom_gives_up {A} (fn : nat -> JS.completion A) maxRetries baseDelay :
  forall remaining i lastError,
    Z.of_nat i + Z.of_nat (S remaining) = maxRetries ->
    (forall j, (i <= j <= i + remaining)%nat -> exists e, fn j = JS.Throw e) ->
    exists e,
      fn (i + remaining)%nat = JS.Throw e
      /\ retryFrom fn maxRetries baseDelay i lastError (S remaining) =
           {| settles := Rejects (Some e); calls := S (i + remaining);
              sleeps := (fun j => baseDelay * 2 ^ Z.of_nat j) <$> seq i remaining |}.
Proof.
  induction remaining as [|remaining IH]; intros i lastError Hinv Hfail.
  - destruct (Hfail i ltac:(lia)) as [e He]. exists e.
    rewrite Nat.add_0_r. split; [exact He|]. simpl. rewrite He.
    destruct (Z.eqb_spec (Z.of_nat i) (maxRetries - 1)); [reflexivity | lia].
  - destruct (Hfail i ltac:(lia)) as [e0 He0].
    destruct (IH (S i) (Some e0)) as (e & He & Hrun); [lia | |].
    { intros j Hj. apply Hfail. lia. }
    exists e. replace (i + S remaining)%nat with (S i + remaining)%nat by lia.
    split; [exact He|].
    change (retryFrom fn maxRetries baseDelay i lastError (S (S remaining)))
      with (match fn i with
            | JS.Return a => {| settles := Resolves a; calls := S i; sleeps := [] |}
            | JS.Throw error =>
                if Z.of_nat i =? maxRetries - 1 then
                  {| settles := Rejects (Some error); calls := S i; sleeps := [] |}
                else
                  let r := retryFrom fn maxRetries baseDelay (S i) (Some error)
                             (S remaining) in
                  {| settles := settles r; calls := calls r;
                     sleeps := baseDelay * 2 ^ Z.of_nat i :: sleeps r |}
            end).
    rewrite He0. destruct (Z.eqb_spec (Z.of_nat i) (maxRetries - 1)); [lia|].
    cbv zeta. rewrite Hrun. reflexivity.
Qed.

Lemma retryFrom_schedule {A} (fn : nat -> JS.completion A) maxRetries baseDelay :
  forall remaining i lastError,
    Z.of_nat i + Z.of_nat remaining = maxRetries ->
    let r := retryFrom fn maxRetries baseDelay i lastError remaining in
    (i <= calls r <= i + remaining)%nat
    /\ (0 < remaining -> i < calls r)%nat
    /\ sleeps r = (fun j => baseDelay * 2 ^ Z.of_nat j) <$> seq i (calls r - 1 - i).
Proof.
  induction remaining as [|remaining IH]; intros i lastError Hinv; simpl.
  - split; [lia|]. split; [lia|]. replace (i - 1 - i)%nat with 0%nat by lia.
    reflexivity.
  - destruct (fn i) as [a|e]; simpl.
    + split; [lia|]. split; [lia|]. replace (i - 0 - i)%nat with 0%nat by lia.
      reflexivity.
    + destruct (Z.eqb_spec (Z.of_nat i) (maxRetries - 1)); simpl.
      * split; [lia|]. split; [lia|]. replace (i - 0 - i)%nat with 0%nat by lia.
        reflexivity.
      * destruct (IH (S i) (Some e) ltac:(lia)) as (Hc & Hpos & Hs).
        specialize (Hpos ltac:(lia)).
        split; [lia|]. split; [lia|]. rewrite Hs.
        replace (calls (retryFrom fn maxRetries baseDelay (S i) (Some e) remaining)
                 - 1 - i)%nat
          with (S (calls (retryFrom fn maxRetries baseDelay (S i) (Some e) remaining)
                   - 1 - S i))%nat by lia.
        reflexivity.
Qed.






(** * Logging in *)

(** X23. An unknown email and a wrong password are answered alike, whether the
    account is active or not: 401 "Invalid credentials", no cookie, store
    untouched.  Only the right password can bring out that an account or its
    tenant is deactivated. *)
Theorem login_invalid_credentials_alike `{Jose} `{Accounts}
    (env : Env) (nodeEnv : option string) (now : Z)
    (email password : string) (st : Store) :
  (findByEmail email st = JS.Return None
   \/ exists user, findByEmail email st = JS.Return (Some user)
                   /\ comparePassword user password = JS.Return false) ->
  login env nodeEnv now [] email password st = (refused 401 "Invalid credentials", st).
Proof.
  intros [Hnone|(user & Hfound & Hwrong)]; unfold login.
  - rewrite Hnone. reflexivity.
  - rewrite Hfound, Hwrong. reflexivity.
Qed.

Lemma login_invalid_credentials_alike_sample :
  @login Sample.jose (SampleLogin.accounts true) Sample.env None 0 []
    "alice@example.com" "looking-glass" Sample.store
  = @login Sample.jose (SampleLogin.accounts true) Sample.env None 0 []
      "mallory@example.com" "looking-glass" Sample.store.
Proof.
  rewrite (@login_invalid_credentials_alike Sample.jose (SampleLogin.accounts true)
             Sample.env None 0 "alice@example.com" "looking-glass" Sample.store).
  - rewrite (@login_invalid_credentials_alike Sample.jose (SampleLogin.accounts true)
               Sample.env None 0 "mallory@example.com" "looking-glass" Sample.store).
    + reflexivity.
    + left. reflexivity.
  - right. exists SampleLogin.alice. split; reflexivity.
Defined.

(** X24. A login sets the session cookie exactly when it answers 200; the
    account was then found, the password matched, account and tenant are
    active and the save went through, and the token in the cookie verifies,
    for seven days, to the ids of that account and its tenant. *)
Theorem login_session `{Jose} `{Accounts}
    (env : Env) (nodeEnv : option string) (now : Z) (validationErrors : list data)
    (email password : string) (st : Store) :
  codec_sound ->
  let answer := fst (login env nodeEnv now validationErrors email password st) in
  (answer_cookies answer <> [] <-> answer_status answer = 200)
  /\ (answer_status answer = 200 ->
      exists user organization token,
        validationErrors = []
        /\ findByEmail email st = JS.Return (Some user)
        /\ comparePassword user password = JS.Return true
        /\ user_isActive (found_doc user) = true
        /\ found_organization user = Some organization
        /\ org_isActive (populated_doc organization) = true
        /\ answer_cookies answer = [ SetCookie "token" token (sessionCookie nodeEnv) ]
        /\ forall t, t / 1000 < now / 1000 + sevenDays ->
             exists decoded,
               jwt_verify token (JWT_SECRET env) t = JS.Return decoded
               /\ claim_userId decoded = user_id (found_doc user)
               /\ claim_organizationId decoded = org_id (populated_doc organization)).
Proof.
  intros Hsound answer. unfold answer, login.
  destruct validationErrors as [|v vs]; [|simpl; split; [split|]; [congruence|lia|lia]].
  destruct (findByEmail email st) as [[user|]|e] eqn:Hfind;
    try (simpl; split; [split|]; [congruence|lia|lia]).
  destruct (comparePassword user password) as [[|]|e] eqn:Hpw;
    try (simpl; split; [split|]; [congruence|lia|lia]).
  destruct (user_isActive (found_doc user)) eqn:Hactive;
    try (simpl; split; [split|]; [congruence|lia|lia]).
  destruct (found_organization user) as [organization|] eqn:Horg;
    try (simpl; split; [split|]; [congruence|lia|lia]).
  destruct (org_isActive (populated_doc organization)) eqn:Hoactive;
    try (simpl; split; [split|]; [congruence|lia|lia]).
  cbn [negb]. cbv zeta.
  destruct (saveLastActive now _ st) as [[|e] st'];
    try (simpl; split; [split|]; [congruence|lia|lia]).
  unfold generateToken, jwt_sign.
  destruct (JS.truthy (JWT_SECRET env)) eqn:Hsecret;
    try (simpl; split; [split|]; [congruence|lia|lia]).
  destruct (truthy_default _ Hsecret) as [Hk Hkne].
  cbn [negb fst answer_cookies answer_status]. split.
  - split; [reflexivity | discriminate].
  - intros _. eexists user, organization, _.
    repeat (split; [first [reflexivity | assumption]|]).
    intros t Ht. eexists. rewrite Hk at 2.
    rewrite (jwt_verify_own _ _ _ Hsound Hkne). simpl.
    destruct (Z.leb_spec (now / 1000 + sevenDays) (t / 1000)) as [?|_]; [lia|].
    repeat split.
Qed.

Lemma login_session_sample :
  answer_cookies
    (fst (@login Sample.jose (SampleLogin.accounts true) Sample.env None 0 []
            "alice@example.com" "wonderland" Sample.store)) <> [].
Proof.
  apply (proj2 (proj1 (@login_session Sample.jose (SampleLogin.accounts true) Sample.env
                         None 0 [] "alice@example.com" "wonderland" Sample.store
                         sample_codec_sound))).
  reflexivity.
Defined.

(** X25. In the login route the save of the "last active" time is awaited: when
    it is rejected, the login fails with a 500 and no cookie, although the
    credentials were right. *)
Theorem login_save_failure `{Jose} `{Accounts}
    (env : Env) (nodeEnv : option string) (now : Z)
    (email password : string) (st st' : Store)
    (user : PopulatedUser) (organization : PopulatedOrganization) (error : JS.error) :
  findByEmail email st = JS.Return (Some user) ->
  comparePassword user password = JS.Return true ->
  user_isActive (found_doc user) = true ->
  found_organization user = Some organization ->
  org_isActive (populated_doc organization) = true ->
  saveLastActive now
    {| found_doc := found_doc user;
       found_firstName := found_firstName user;
       found_lastName := found_lastName user;
       found_lastLoginAt := now;
       found_loginCount := found_loginCount user + 1;
       found_organization := found_organization user |} st
    = (JS.Rejected error, st') ->
  login env nodeEnv now [] email password st = (loginFailed nodeEnv error, st')
  /\ answer_status (loginFailed nodeEnv error) = 500
  /\ answer_cookies (loginFailed nodeEnv error) = []
  /\ (isDevelopment nodeEnv = false ->
      answer_body (loginFailed nodeEnv error) =
        DObject [ ("success", DBool false); ("message", DString "Login failed") ]).
Proof.
  intros Hfind Hpw Hactive Horg Hoactive Hsave. unfold login.
  rewrite Hfind, Hpw, Hactive. rewrite Horg in Hsave |- *.
  rewrite Hoactive. cbn [negb]. cbv zeta. rewrite Hsave. split; [reflexivity|]. split; [reflexivity|]. split; [reflexivity|].
  intros Hdev. unfold loginFailed. rewrite Hdev. reflexivity.
Qed.

Lemma login_save_failure_sample :
  @login Sample.jose (SampleLogin.accounts false) Sample.env (Some "production") 0 []
    "alice@example.com" "wonderland" Sample.store
  = (loginFailed (Some "production")
       (JS.Error "MongoNetworkError" "connection closed"), Sample.store).
Proof.
  refine (proj1 (@login_save_failure Sample.jose (SampleLogin.accounts false) Sample.env
                   (Some "production") 0 "alice@example.com" "wonderland"
                   Sample.store Sample.store SampleLogin.alice SampleLogin.acme
                   (JS.Error "MongoNetworkError" "connection closed") _ _ _ _ _ _));
    reflexivity.
Defined.

(** * Email addresses *)

Example isValidEmail_plain : isValidEmail "alice@example.com" = true.
Proof. vm_compute. reflexivity. Qed.

Example isValidEmail_no_dot : isValidEmail "alice@localhost" = false.
Proof. vm_compute. reflexivity. Qed.

Example isValidEmail_two_ats : isValidEmail "a@b@c.d" = false.
Proof. vm_compute. reflexivity. Qed.

Example isValidEmail_no_break_space :
  isValidEmail ("a" +:+ String "160" "b@c.d") = false.
Proof. vm_compute. reflexivity. Qed.

Lemma append_empty s1 s2 : s1 +:+ s2 = "" -> s1 = "" /\ s2 = "".
Proof. destruct s1; simpl; [auto | discriminate]. Qed.

Lemma nullable_spec r : nullable r = true <-> denotes r "".
Proof.
  split.
  - induction r; simpl; try discriminate; intros Hn.
    + constructor.
    + apply andb_true_iff in Hn. destruct Hn as [H1 H2].
      change "" with ("" +:+ ""). constructor; auto.
    + apply orb_true_iff in Hn. destruct Hn; [apply denotes_alt_l | apply denotes_alt_r]; auto.
    + constructor.
  - intros H. remember "" as s eqn:Hs. induction H; simpl; subst; try reflexivity;
      try discriminate.
    + apply append_empty in Hs. destruct Hs as [-> ->].
      rewrite IHdenotes1, IHdenotes2; reflexivity.
    + rewrite IHdenotes; reflexivity.
    + rewrite IHdenotes, orb_true_r; reflexivity.
Qed.

Lemma derivative_sound c r : forall s, denotes (derivative c r) s -> denotes r (String c s).
Proof.
  induction r; simpl; intros s H.
  - inversion H.
  - inversion H.
  - destruct (p c) eqn:E; inversion H; subst. constructor. exact E.
  - destruct (nullable r1) eqn:En.
    + inversion H as [| |? ? ? ? Ha Hb| ? ? ? Ha | ? ? ? Ha | |]; subst.
      * inversion Ha; subst.
        change (String c (s1 +:+ s2)) with (String c s1 +:+ s2). constructor; auto.
      * change (String c s) with ("" +:+ String c s). constructor; auto.
        apply nullable_spec, En.
    + inversion H; subst.
      change (String c (s1 +:+ s2)) with (String c s1 +:+ s2). constructor; auto.
  - inversion H; subst; [apply denotes_alt_l | apply denotes_alt_r]; auto.
  - inversion H; subst.
    change (String c (s1 +:+ s2)) with (String c s1 +:+ s2). constructor; auto.
Qed.

Lemma derivative_complete c r s' :
  denotes r s' -> forall s, s' = String c s -> denotes (derivative c r) s.
Proof.
  induction 1 as [|p c' Hp|r1 r2 s1 s2 H1 IH1 H2 IH2|r1 r2 s0 H1 IH1|r1 r2 s0 H2 IH2
                  |r|r s1 s2 H1 IH1 H2 IH2]; intros s Hs; simpl.
  - discriminate.
  - injection Hs as -> <-. rewrite Hp. constructor.
  - destruct s1 as [|c1 s1'].
    + simpl in Hs. apply nullable_spec in H1. rewrite H1.
      apply denotes_alt_r. apply IH2, Hs.
    + simpl in Hs. injection Hs as -> <-.
      destruct (nullable r1); [apply denotes_alt_l|]; constructor; auto.
  - apply denotes_alt_l. auto.
  - apply denotes_alt_r. auto.
  - discriminate.
  - destruct s1 as [|c1 s1'].
    + simpl in Hs. apply (IH2 s Hs).
    + simpl in Hs. injection Hs as -> <-. constructor; auto.
Qed.

Lemma regexTest_spec s : forall r, regexTest r s = true <-> denotes r s.
Proof.
  induction s as [|c s IH]; intros r; simpl.
  - apply nullable_spec.
  - rewrite IH. split.
    + apply derivative_sound.
    + intros H. exact (derivative_complete c r _ H s eq_refl).
Qed.

Lemma denotes_star_class p s : denotes (Star (Class p)) s <-> Text.every p s = true.
Proof.
  split.
  - intros H. remember (Star (Class p)) as r eqn:Hr.
    induction H as [| | | | | |r0 s1 s2 H1 _ H2 IH2]; try discriminate;
      injection Hr as ->; [reflexivity|].
    inversion H1 as [|? ? Hp| | | | |]; subst. simpl. rewrite Hp. simpl.
    apply IH2. reflexivity.
  - induction s as [|c s IH]; simpl; [intros _; constructor|].
    intros [Hc Hs]%andb_true_iff.
    change (String c s) with (String c "" +:+ s).
    constructor; [constructor; exact Hc | auto].
Qed.

Lemma denotes_plus_class p s :
  denotes (Plus (Class p)) s <-> s <> "" /\ Text.every p s = true.
Proof.
  unfold Plus. split.
  - intros H. inversion H as [| |? ? ? ? Ha Hb| | | |]; subst.
    inversion Ha as [|? ? Hp| | | | |]; subst. apply denotes_star_class in Hb. simpl.
    split; [discriminate|]. change ("" +:+ s2) with s2. rewrite Hp, Hb. reflexivity.
  - intros [Hne Hall]. destruct s as [|c s]; [congruence|]. simpl in Hall.
    apply andb_true_iff in Hall. destruct Hall as [Hc Hs].
    change (String c s) with (String c "" +:+ s).
    constructor; [constructor; exact Hc | apply denotes_star_class, Hs].
Qed.

(** X26. [isValidEmail] accepts exactly the strings of the form a@b.c in which
    a, b and c are non-empty and contain neither white space nor "@"; so an
    accepted address has no white space, exactly one "@", and a dot inside
    what follows it. *)
Theorem isValidEmail_shape (email : string) :
  isValidEmail email = true <->
  exists a b c,
    email = a +:+ "@" +:+ b +:+ "." +:+ c
    /\ a <> "" /\ b <> "" /\ c <> ""
    /\ Text.every addressChar a = true
    /\ Text.every addressChar b = true
    /\ Text.every addressChar c = true.
Proof.
  unfold isValidEmail. rewrite regexTest_spec. unfold emailRegex. split.
  - intros H.
    inversion H as [| |? ? a r1 Ha H1| | | |]; subst.
    inversion H1 as [| |? ? at1 r2 Hat H2| | | |]; subst.
    inversion H2 as [| |? ? b r3 Hb H3| | | |]; subst.
    inversion H3 as [| |? ? dot c Hdot Hc| | | |]; subst.
    inversion Hat as [|? ? Hat'| | | | |]; subst.
    inversion Hdot as [|? ? Hdot'| | | | |]; subst.
    apply Ascii.eqb_eq in Hat', Hdot'. subst.
    apply denotes_plus_class in Ha, Hb, Hc.
    exists a, b, c. simpl. intuition.
  - intros (a & b & c & -> & Ha & Hb & Hc & Ea & Eb & Ec).
    constructor; [apply denotes_plus_class; auto|].
    change ("@" +:+ b +:+ "." +:+ c) with (String "@" "" +:+ (b +:+ "." +:+ c)).
    constructor; [constructor; reflexivity|].
    constructor; [apply denotes_plus_class; auto|].
    change ("." +:+ c) with (String "." "" +:+ c).
    constructor; [constructor; reflexivity|].
    apply denotes_plus_class; auto.
Qed.
